(** * refl1d GUI fit execution: monitors, fit thread and result handling

    A shallow embedding of [refl1d/gui/fit_thread.py] and of the fit related
    parts of [refl1d/gui/app_panel.py].

    Python objects that are mutated in place and shared by reference (the fit
    problem) live in a store indexed by object identity.  Everything a method
    does to the outside (posting a wx event, publishing a message, printing,
    saving) is recorded, in program order, in a log of actions.  A method is a
    function from the store to an outcome: a returned value or a raised
    exception, the new store, and the actions performed.

    Times and rates are Python floats: they are binary64 floats here, with
    the rounded addition and the comparison of the machine (an integer rate,
    such as the 5 and the 15 of [run], is the float of the same value). *)

From Stdlib Require Import QArith Lia.
From Stdlib Require Import PrimFloat SpecFloat FloatOps.
From stdpp Require Import gmap strings list.

Open Scope string_scope.
Open Scope list_scope.

(** ** Python values carried by histories and events *)

Inductive pyval : Type :=
| PyNone
| PyInt (n : Z)
| PyFloat (q : Q)
| PyList (xs : list Q)
| PyStr (s : string).

(** Truth value of a Python object, as tested by [if obj:]. *)
Definition truthy (v : pyval) : bool :=
  match v with
  | PyNone => false
  | PyInt n => negb (n =? 0)%Z
  | PyFloat q => negb (Qeq_bool q 0)
  | PyList xs => match xs with [] => false | _ => true end
  | PyStr s => match s with EmptyString => false | _ => true end
  end.

(** [a or b] on an optional number: [b] when [a] is [None] or zero. *)
Definition py_or (a : option float) (b : float) : float :=
  match a with
  | Some q => if PrimFloat.eqb q 0 then b else q
  | None => b
  end.

(** [a >= b + c] on floats: the sum is rounded, then compared. *)
Definition ge_sum (a b c : float) : bool :=
  PrimFloat.leb (PrimFloat.add b c) a.

(** The exact value of a finite float, as a rational. *)
Definition exact_value (f : float) : option Q :=
  match Prim2SF f with
  | S754_zero _ => Some 0%Q
  | S754_finite s m e =>
      let n := if s then Z.neg m else Z.pos m in
      Some (match e with
            | Z0 => inject_Z n
            | Zpos k => inject_Z (n * Z.pow_pos 2 k)
            | Zneg k => Qmake n (Pos.pow 2 k)
            end)
  | _ => None
  end.

(** Values have no identity of their own, so a deep copy is the value. *)
Definition deepcopy_val (v : pyval) : pyval := v.

Inductive exn : Type :=
| AttributeError (attr : string)
| KeyError (key : string)
| IOError (path : string)
| RuntimeError (msg : string).

Inductive result (A : Type) : Type :=
| Ok (a : A)
| Raise (e : exn).
Arguments Ok {A} a.
Arguments Raise {A} e.

(** ** The fit problem *)

Record FitParameter : Type := {
  name : string;
  lo : Q;
  hi : Q;
  value : Q
}.

Record Problem : Type := {
  parameters : list FitParameter;
  output : string
}.

Definition set_value (p : FitParameter) (v : Q) : FitParameter :=
  {| name := name p; lo := lo p; hi := hi p; value := v |}.

(** Modelled from the spec: [Problem.setp] (the Problem class belongs to the model
    layer).  The problem owns a sequence of parameters, each
    with a current value, and exposes a mutable parameter vector; [setp]
    writes a point into the current values, position by position. *)
Fixpoint setp_values (ps : list FitParameter) (pt : list Q) : list FitParameter :=
  match ps, pt with
  | p :: ps', v :: pt' => set_value p v :: setp_values ps' pt'
  | _, _ => ps
  end.

Definition setp (p : Problem) (pt : list Q) : Problem :=
  {| parameters := setp_values (parameters p) pt; output := output p |}.

Definition getp (p : Problem) : list Q := map value (parameters p).

(** ** History records *)

(** The most recent entry of each trace of the history ([history.step[0]],
    [history.value[0]], [history.point[0]], [history.time[0]]).  The
    [uncertainty_state] attribute exists only for some fitters: [None] is a
    history object without that attribute. *)
Record History : Type := {
  h_step : Z;
  h_value : Q;
  h_point : list Q;
  h_time : float;
  uncertainty_state : option pyval
}.

(** ** Events, actions and the store *)

Definition addr : Type := positive.
Definition window : Type := positive.

Inductive Event : Type :=
| FitProgressEvent (problem : addr) (message : string)
                   (kwargs : list (string * pyval))
| FitCompleteEvent (problem : addr) (point : pyval) (value : pyval).

Definition event_problem (e : Event) : addr :=
  match e with
  | FitProgressEvent p _ _ => p
  | FitCompleteEvent p _ _ => p
  end.

Definition event_message (e : Event) : string :=
  match e with
  | FitProgressEvent _ m _ => m
  | FitCompleteEvent _ _ _ => "complete"
  end.

Inductive MapperClass : Type := MPMapper | SerialMapper.

Inductive Action : Type :=
(* wx.PostEvent(win, evt) *)
| PostEvent (win : window) (evt : Event)
(* wx.CallAfter(pub.sendMessage, topic, data) and pub.sendMessage(topic, data) *)
| SendMessage (topic : string) (data : pyval)
(* pub.sendMessage(topic, problem), the data being the problem object *)
| SendProblem (topic : string) (problem : addr)
| SetStatusText (text : string) (field : Z)
| Print (text : string)
| FitterSave (path : string)
| ProblemSave (path : string) (best : pyval)
| OpenStdout (path : string)
| Layout
| Redraw (problem : addr)
| FitnessUpdate (problem : addr)
| MakeStore (problem : addr)
| StartWorker (problem : addr) (mapper : MapperClass)
(* Thread.start() *)
| ThreadStart
(* copy.deepcopy(src), giving the new object dst *)
| Deepcopy (src dst : addr)
(* mapper.start_mapper(problem, []) *)
| StartMapper (mapper : MapperClass) (problem : addr)
(* M.final() on the i-th registered monitor *)
| FinalCall (i : nat).

Abbreviation Heap := (gmap addr Problem).

Record Outcome (A : Type) : Type := {
  res : result A;
  heap_of : Heap;
  out : list Action
}.
Arguments res {A} o.
Arguments heap_of {A} o.
Arguments out {A} o.
Arguments Build_Outcome {A} res heap_of out.

Definition M (A : Type) : Type := Heap -> Outcome A.

Definition ret {A} (a : A) : M A :=
  fun hp => {| res := Ok a; heap_of := hp; out := [] |}.

Definition raise {A} (e : exn) : M A :=
  fun hp => {| res := Raise e; heap_of := hp; out := [] |}.

Definition bind {A B} (m : M A) (k : A -> M B) : M B :=
  fun hp =>
    let o := m hp in
    match res o with
    | Ok a =>
        let o' := k a (heap_of o) in
        {| res := res o'; heap_of := heap_of o'; out := out o ++ out o' |}
    | Raise e => {| res := Raise e; heap_of := heap_of o; out := out o |}
    end.

Declare Scope py_scope.
Delimit Scope py_scope with py.
Notation "x <- c1 ;; c2" := (bind c1 (fun x => c2))
  (at level 100, c1 at next level, right associativity) : py_scope.
Notation "c1 ;;; c2" := (bind c1 (fun _ => c2))
  (at level 100, right associativity) : py_scope.
Open Scope py_scope.

Definition act (a : Action) : M unit :=
  fun hp => {| res := Ok tt; heap_of := hp; out := [a] |}.

(** [try: body except: pass] *)
Definition try_pass (body : M unit) : M unit :=
  fun hp =>
    let o := body hp in
    {| res := Ok tt; heap_of := heap_of o; out := out o |}.

(** [obj.setp(pt)] on the object at [a], in place. *)
Definition setp_at (a : addr) (pt : list Q) : M unit :=
  fun hp =>
    match hp !! a with
    | Some p => {| res := Ok tt; heap_of := <[a := setp p pt]> hp; out := [] |}
    | None => {| res := Raise (AttributeError "setp"); heap_of := hp; out := [] |}
    end.

(** [copy.deepcopy(obj)] on the object at [a]: a new object, at an identity
    not in use, with the same contents. *)
Definition deepcopy (a : addr) : M addr :=
  fun hp =>
    match hp !! a with
    | Some p =>
        let a' := fresh (dom hp) in
        {| res := Ok a'; heap_of := <[a' := p]> hp; out := [Deepcopy a a'] |}
    | None => {| res := Raise (AttributeError "__deepcopy__"); heap_of := hp; out := [] |}
    end.

(** What a call into code that is not part of these modules does: it may
    change the objects of the store, and it returns ([None]) or raises. *)
Definition Effect : Type := Heap -> option exn * Heap.

(** Such a call: the call is made, then the store is as the callee left it
    and the call has returned or raised. *)
Definition call (a : Action) (c : Effect) : M unit :=
  fun hp =>
    {| res := match fst (c hp) with None => Ok tt | Some e => Raise e end;
       heap_of := snd (c hp);
       out := [a] |}.

(** ** Interfaces of the monitor base classes

    [monitor.TimedUpdate] and the monitor wrapped by the generic GUI monitor
    belong to the [mystic] package; the code below depends on them only
    through these interfaces. *)

(** The two methods a [TimedUpdate] subclass overrides. *)
Inductive Hook : Type :=
| ShowProgress (h : History)
| ShowImprovement (h : History).

(** [monitor.TimedUpdate]: its constructor takes the progress and the
    improvement delay; its [__call__] decides which hooks to call, and in
    which order; [tu_final] is [None] when the class has no [final]. *)
Class TimedUpdate : Type := {
  tu_state : Type;
  tu_init : float -> float -> tu_state;
  tu_call : tu_state -> History -> tu_state * list Hook;
  tu_final : option (tu_state -> list Hook)
}.

(** A monitor with a [progress()] summary, as wrapped by the generic GUI
    monitor ([ConvergenceMonitor] in the fit thread). *)
Class ProgressMonitor : Type := {
  pm_state : Type;
  pm_new : pm_state;
  pm_call : pm_state -> History -> pm_state;
  pm_progress : pm_state -> list (string * pyval)
}.

(** Modelled from the spec: [monitor.TimedUpdate].  The progress hook runs no
    more often than once per progress interval of [History.time]; the
    improvement hook runs only when a new best value has been observed, at
    most once per improvement interval, later improvements in the window
    being coalesced; [final] emits the most recent state. *)
Record TimedState : Type := {
  progress_delta : float;
  improvement_delta : float;
  progress_time : option float;
  improvement_time : option float;
  best_value : option Q;
  improved : bool;
  latest : option History
}.

Definition due (last : option float) (delta t : float) : bool :=
  match last with
  | None => true
  | Some t0 => ge_sum t t0 delta
  end.

Definition is_better (best : option Q) (v : Q) : bool :=
  match best with
  | None => true
  | Some b => negb (Qle_bool b v)
  end.

Definition TimedState_init (progress improvement : float) : TimedState :=
  {| progress_delta := progress; improvement_delta := improvement;
     progress_time := None; improvement_time := None;
     best_value := None; improved := false; latest := None |}.

Definition TimedState_call (s : TimedState) (h : History)
  : TimedState * list Hook :=
  let t := h_time h in
  let better := is_better (best_value s) (h_value h) in
  let best' := if better then Some (h_value h) else best_value s in
  let improved1 := improved s || better in
  let show_p := due (progress_time s) (progress_delta s) t in
  let show_i := improved1 && due (improvement_time s) (improvement_delta s) t in
  ({| progress_delta := progress_delta s;
      improvement_delta := improvement_delta s;
      progress_time := if show_p then Some t else progress_time s;
      improvement_time := if show_i then Some t else improvement_time s;
      best_value := best';
      improved := if show_i then false else improved1;
      latest := Some h |},
   (if show_p then [ShowProgress h] else []) ++
   (if show_i then [ShowImprovement h] else [])).

Definition TimedState_final (s : TimedState) : list Hook :=
  match latest s with
  | Some h => [ShowImprovement h]
  | None => []
  end.

Definition SpecTimedUpdate : TimedUpdate :=
  {| tu_state := TimedState; tu_init := TimedState_init;
     tu_call := TimedState_call; tu_final := Some TimedState_final |}.

(** A [TimedUpdate] without a [final] method. *)
Definition PlainTimedUpdate : TimedUpdate :=
  {| tu_state := TimedState; tu_init := TimedState_init;
     tu_call := TimedState_call; tu_final := None |}.

(** Modelled from the spec: [ConvergenceMonitor].  It maintains a rolling
    record of the value trend, and its summary is emitted by the
    generic GUI monitor; here the record is the list of best values seen,
    most recent first. *)
Definition SpecConvergenceMonitor : ProgressMonitor :=
  {| pm_state := list Q;
     pm_new := [];
     pm_call := fun s h => h_value h :: s;
     pm_progress := fun s => [("pop", PyList s)] |}.

(** ** The fitting algorithm seen from the driver

    One generation of the algorithm evaluates a candidate on the problem it
    was given (which sets the parameters of that problem) and produces one
    history record; the run ends by returning the best point and value or
    by raising. *)
Record Step : Type := {
  candidate : list Q;
  record : History
}.

Inductive Ending : Type :=
| Returns (x fx : pyval)
| Raises (e : exn).

Record Algorithm : Type := {
  steps : list Step;
  ending : Ending
}.

(** ** fit_thread.py *)

Module fit_thread.

Definition PROGRESS_DELAY : float := 5.
Definition IMPROVEMENT_DELAY : float := 5.

Section Monitors.
Context {TU : TimedUpdate} {PM : ProgressMonitor}.

(** *** class GUIProgressMonitor(monitor.TimedUpdate) *)

Record GUIProgressMonitor : Type := {
  gp_base : tu_state;
  gp_win : window;
  gp_problem : addr
}.

Definition GUIProgressMonitor_init (win : window) (problem : addr)
    (progress improvement : option float) : GUIProgressMonitor :=
  {| gp_base := tu_init (py_or progress PROGRESS_DELAY)
                        (py_or improvement IMPROVEMENT_DELAY);
     gp_win := win;
     gp_problem := problem |}.

Definition show_progress (self : GUIProgressMonitor) (history : History)
  : M unit :=
  let evt := FitProgressEvent (gp_problem self) "progress"
               [("step", PyInt (h_step history));
                ("value", PyFloat (h_value history));
                ("point", PyList (h_point history))] in
  act (PostEvent (gp_win self) evt).

Definition show_improvement (self : GUIProgressMonitor) (history : History)
  : M unit :=
  let evt := FitProgressEvent (gp_problem self) "improvement"
               [("step", PyInt (h_step history));
                ("value", PyFloat (h_value history));
                ("point", PyList (h_point history))] in
  act (PostEvent (gp_win self) evt).

Definition run_hook (self : GUIProgressMonitor) (k : Hook) : M unit :=
  match k with
  | ShowProgress h => show_progress self h
  | ShowImprovement h => show_improvement self h
  end.

Fixpoint run_hooks (self : GUIProgressMonitor) (ks : list Hook) : M unit :=
  match ks with
  | [] => ret tt
  | k :: ks' => run_hook self k ;;; run_hooks self ks'
  end.

(** The inherited [TimedUpdate.__call__], calling back the two methods
    above. *)
Definition GUIProgressMonitor_call (self : GUIProgressMonitor)
    (history : History) : M GUIProgressMonitor :=
  let '(base', hooks) := tu_call (gp_base self) history in
  run_hooks self hooks ;;;
  ret {| gp_base := base'; gp_win := gp_win self;
         gp_problem := gp_problem self |}.

(** *** class GUIMonitor(monitor.Monitor) *)

Record GUIMonitor : Type := {
  time : float;
  rate : float;
  win : window;
  problem : addr;
  message : string;
  monitor : pm_state
}.

Definition GUIMonitor_init (win : window) (problem : addr) (message : string)
    (monitor : pm_state) (rate : option float) : GUIMonitor :=
  {| time := 0;
     rate := py_or rate 10;
     win := win;
     problem := problem;
     message := message;
     monitor := monitor |}.

Definition GUIMonitor_call (self : GUIMonitor) (history : History)
  : M GUIMonitor :=
  let monitor' := pm_call (monitor self) history in
  if ge_sum (h_time history) (time self) (rate self) then
    let evt := FitProgressEvent (problem self) (message self)
                 (pm_progress monitor') in
    act (PostEvent (win self) evt) ;;;
    ret {| time := h_time history; rate := rate self; win := win self;
           problem := problem self; message := message self;
           monitor := monitor' |}
  else
    ret {| time := time self; rate := rate self; win := win self;
           problem := problem self; message := message self;
           monitor := monitor' |}.

Definition GUIMonitor_final (self : GUIMonitor) : M unit :=
  let evt := FitProgressEvent (problem self) (message self)
               (pm_progress (monitor self)) in
  act (PostEvent (win self) evt).

(** *** class DreamMonitor(monitor.Monitor) *)

Record DreamMonitor : Type := {
  dm_time : float;
  dm_rate : float;
  dm_win : window;
  dm_problem : addr;
  dm_fitter : Algorithm;
  dm_message : string;
  dm_state : pyval
}.

Definition DreamMonitor_init (win : window) (problem : addr) (message : string)
    (fitter : Algorithm) (rate : option float) : DreamMonitor :=
  {| dm_time := 0;
     dm_rate := py_or rate 60;
     dm_win := win;
     dm_problem := problem;
     dm_fitter := fitter;
     dm_message := message;
     dm_state := PyNone |}.

(** [history.uncertainty_state] *)
Definition get_uncertainty_state (history : History) : M pyval :=
  match uncertainty_state history with
  | Some v => ret v
  | None => raise (AttributeError "uncertainty_state")
  end.

(** [hasattr(history, 'uncertainty_state')] *)
Definition hasattr_uncertainty_state (history : History) : bool :=
  match uncertainty_state history with
  | Some _ => true
  | None => false
  end.

Definition DreamMonitor_call (self : DreamMonitor) (history : History)
  : M DreamMonitor :=
  v <- get_uncertainty_state history ;;
  let self1 := {| dm_time := dm_time self; dm_rate := dm_rate self;
                  dm_win := dm_win self; dm_problem := dm_problem self;
                  dm_fitter := dm_fitter self; dm_message := dm_message self;
                  dm_state := v |} in
  if ge_sum (h_time history) (dm_time self1) (dm_rate self1)
     && hasattr_uncertainty_state history then
    let evt := FitProgressEvent (dm_problem self1) "uncertainty_update"
                 [("state", deepcopy_val (dm_state self1))] in
    act (PostEvent (dm_win self1) evt) ;;;
    ret {| dm_time := h_time history; dm_rate := dm_rate self1;
           dm_win := dm_win self1; dm_problem := dm_problem self1;
           dm_fitter := dm_fitter self1; dm_message := dm_message self1;
           dm_state := dm_state self1 |}
  else ret self1.

Definition DreamMonitor_final (self : DreamMonitor) : M unit :=
  if truthy (dm_state self) then
    let evt := FitProgressEvent (dm_problem self) "uncertainty_update"
                 [("state", deepcopy_val (dm_state self))] in
    act (PostEvent (dm_win self) evt)
  else ret tt.

(** *** The monitors of a run *)

Inductive Monitor : Type :=
| MGUIProgress (m : GUIProgressMonitor)
| MGUI (m : GUIMonitor)
| MDream (m : DreamMonitor).

(** [M(history)] *)
Definition Monitor_call (m : Monitor) (history : History) : M Monitor :=
  match m with
  | MGUIProgress g => g' <- GUIProgressMonitor_call g history ;; ret (MGUIProgress g')
  | MGUI g => g' <- GUIMonitor_call g history ;; ret (MGUI g')
  | MDream d => d' <- DreamMonitor_call d history ;; ret (MDream d')
  end.

(** [hasattr(M, 'final')] *)
Definition hasattr_final (m : Monitor) : bool :=
  match m with
  | MGUIProgress _ => match tu_final with Some _ => true | None => false end
  | MGUI _ => true
  | MDream _ => true
  end.

(** [M.final()] *)
Definition Monitor_final (m : Monitor) : M unit :=
  match m with
  | MGUIProgress g =>
      match tu_final with
      | Some f => run_hooks g (f (gp_base g))
      | None => raise (AttributeError "final")
      end
  | MGUI g => GUIMonitor_final g
  | MDream d => DreamMonitor_final d
  end.

Definition Monitor_problem (m : Monitor) : addr :=
  match m with
  | MGUIProgress g => gp_problem g
  | MGUI g => problem g
  | MDream d => dm_problem d
  end.

Definition Monitor_win (m : Monitor) : window :=
  match m with
  | MGUIProgress g => gp_win g
  | MGUI g => win g
  | MDream d => dm_win d
  end.

(** Two states of the same monitor object. *)
Definition same_monitor (m m' : Monitor) : Prop :=
  Monitor_problem m' = Monitor_problem m /\
  Monitor_win m' = Monitor_win m /\
  hasattr_final m' = hasattr_final m.

(** *** FitDriver *)

Record FitDriver : Type := {
  d_fitclass : Algorithm;
  d_problem : addr;
  d_monitors : list Monitor;
  d_mapper : MapperClass * addr;
  d_options : list (string * pyval)
}.

(** Every monitor sees the record, in registration order. *)
Fixpoint feed (ms : list Monitor) (history : History) : M (list Monitor) :=
  match ms with
  | [] => ret []
  | m :: ms' =>
      m' <- Monitor_call m history ;;
      ms'' <- feed ms' history ;;
      ret (m' :: ms'')
  end.

Fixpoint generations (problem : addr) (ms : list Monitor) (ss : list Step)
  : M (list Monitor) :=
  match ss with
  | [] => ret ms
  | s :: ss' =>
      setp_at problem (candidate s) ;;;
      ms' <- feed ms (record s) ;;
      generations problem ms' ss'
  end.

(** Modelled from the spec: [FitDriver.fit] (the driver belongs to the
    [fitters] module).  It runs the algorithm against the problem it was
    given, routes every History record to every monitor of the chain in
    registration order, and returns the best point and value; an exception
    raised by the algorithm or by a monitor propagates to the caller.  The
    monitors are objects updated in place: their state after the fit is
    returned next to the result. *)
Definition FitDriver_fit (driver : FitDriver)
  : M (list Monitor * (pyval * pyval)) :=
  ms' <- generations (d_problem driver) (d_monitors driver)
           (steps (d_fitclass driver)) ;;
  match ending (d_fitclass driver) with
  | Returns x fx => ret (ms', (x, fx))
  | Raises e => raise e
  end.

(** [mapper.start_mapper(problem, [])] *)
Definition start_mapper (mapper : MapperClass) (problem : addr)
  : M (MapperClass * addr) :=
  act (StartMapper mapper problem) ;;; ret (mapper, problem).

(** *** class FitThread(Thread) *)

Record FitThread : Type := {
  ft_win : window;
  ft_problem : addr;
  ft_fitclass : Algorithm;
  ft_options : list (string * pyval);
  ft_mapper : option MapperClass
}.

Definition FitThread_init (win : window) (problem : addr)
    (fitclass : Algorithm) (options : list (string * pyval))
    (mapper : option MapperClass) : M FitThread :=
  let self := {| ft_win := win; ft_problem := problem;
                 ft_fitclass := fitclass; ft_options := options;
                 ft_mapper := mapper |} in
  act ThreadStart ;;;
  ret self.

(** [for M in monitors: if hasattr(M, 'final'): M.final()], from the [i]-th
    monitor on. *)
Fixpoint finals (i : nat) (ms : list Monitor) : M unit :=
  match ms with
  | [] => ret tt
  | m :: ms' =>
      (if hasattr_final m then act (FinalCall i) ;;; Monitor_final m
       else ret tt) ;;;
      finals (S i) ms'
  end.

Definition run_monitors (self : FitThread) : list Monitor :=
  [MGUIProgress (GUIProgressMonitor_init (ft_win self) (ft_problem self)
                   None None);
   MGUI (GUIMonitor_init (ft_win self) (ft_problem self)
           "convergence_update" pm_new (Some 5%float));
   MDream (DreamMonitor_init (ft_win self) (ft_problem self)
             "uncertainty_update" (ft_fitclass self) (Some 15%float))].

Definition run_mapper (self : FitThread) : MapperClass :=
  if true then MPMapper else SerialMapper.

(** The first half of [run], up to the construction of the driver. *)
Definition run_driver (self : FitThread) : M FitDriver :=
  let monitors := run_monitors self in
  let mapper := run_mapper self in
  problem <- deepcopy (ft_problem self) ;;
  mapfn <- start_mapper mapper problem ;;
  ret {| d_fitclass := ft_fitclass self; d_problem := problem;
         d_monitors := monitors; d_mapper := mapfn;
         d_options := ft_options self |}.

Definition FitThread_run (self : FitThread) : M unit :=
  driver <- run_driver self ;;
  r <- FitDriver_fit driver ;;
  let '(monitors', (x, fx)) := r in
  finals 0 monitors' ;;;
  let evt := FitCompleteEvent (ft_problem self) x fx in
  act (PostEvent (ft_win self) evt).

(** A fit session as the primary context sees it: the thread is created
    (and started by its constructor), the primary context goes on, possibly
    editing the original problem ([edits], one [setp] each), and the body of
    the thread runs. *)
Fixpoint primary_edits (problem : addr) (edits : list (list Q)) : M unit :=
  match edits with
  | [] => ret tt
  | pt :: rest => setp_at problem pt ;;; primary_edits problem rest
  end.

Definition session (win : window) (problem : addr) (fitclass : Algorithm)
    (options : list (string * pyval)) (mapper : option MapperClass)
    (edits : list (list Q)) : M unit :=
  self <- FitThread_init win problem fitclass options mapper ;;
  primary_edits problem edits ;;;
  FitThread_run self.

End Monitors.

End fit_thread.

(** ** app_panel.py *)

Module app_panel.

Section Panel.
Context {TU : TimedUpdate}.

(** [str] on numbers, [util.nice] and [parameter.summarize] are used as
    given. *)
Variable str_int : Z -> string.
Variable str_float : Q -> string.
Variable nice : Q -> Q.
Variable summarize : list FitParameter -> string.

(** What is called by [remember_best] and [redraw]: [fitter.save(path)],
    [problem.save(path, best)] on the problem at an address, [open(path,
    "w")], and the drawing of a model ([pylab] and the [show], [plot] and
    [chisq] methods of the model). *)
Variable fitter_save : string -> Effect.
Variable problem_save : addr -> string -> pyval -> Effect.
Variable open_file : string -> Effect.
Variable draw : addr -> Effect.

(** [problem.parameters] and [problem.output] *)
Definition get_parameters (a : addr) : M (list FitParameter) :=
  fun hp =>
    match hp !! a with
    | Some p => {| res := Ok (parameters p); heap_of := hp; out := [] |}
    | None => {| res := Raise (AttributeError "parameters"); heap_of := hp;
                 out := [] |}
    end.

Definition get_output (a : addr) : M string :=
  fun hp =>
    match hp !! a with
    | Some p => {| res := Ok (output p); heap_of := hp; out := [] |}
    | None => {| res := Raise (AttributeError "output"); heap_of := hp;
                 out := [] |}
    end.

(** *** class GUIMonitor(monitor.TimedUpdate) *)

Record GUIMonitor : Type := {
  base : tu_state;
  problem : addr
}.

Definition GUIMonitor_init (problem : addr) (progress improvement : option float)
  : GUIMonitor :=
  {| base := tu_init (default 1%float progress) (default 15%float improvement);
     problem := problem |}.

Definition show_progress (self : GUIMonitor) (history : History) : M unit :=
  let temp := "  " in
  let chisq_rounded := nice (h_value history) in
  act (SendMessage "update"
         (PyStr (String.append "step  "
                (String.append (str_int (h_step history))
                (String.append temp
                (String.append "chisq  " (str_float chisq_rounded))))))).

Definition show_improvement (self : GUIMonitor) (history : History)
  : M unit :=
  setp_at (problem self) (h_point history) ;;;
  ps <- get_parameters (problem self) ;;
  let out := summarize ps in
  act (SendMessage "update_plot" (PyStr out)).

Definition run_hook (self : GUIMonitor) (k : Hook) : M unit :=
  match k with
  | ShowProgress h => show_progress self h
  | ShowImprovement h => show_improvement self h
  end.

Fixpoint run_hooks (self : GUIMonitor) (ks : list Hook) : M unit :=
  match ks with
  | [] => ret tt
  | k :: ks' => run_hook self k ;;; run_hooks self ks'
  end.

(** The inherited [TimedUpdate.__call__]. *)
Definition GUIMonitor_call (self : GUIMonitor) (history : History)
  : M GUIMonitor :=
  let '(base', hooks) := tu_call (base self) history in
  run_hooks self hooks ;;;
  ret {| base := base'; problem := problem self |}.

(** *** class AppPanel(wx.Panel) *)

Record AppPanel : Type := {
  ap_problem : addr
}.

(** The body of [redraw] is made of calls to [pylab] and to the model
    only: they are taken together, as one call. *)
Definition redraw (self : AppPanel) (model : addr) : M unit :=
  call (Redraw model) (draw model).

(** The monitor handed to the fitter is returned: it is called from the
    worker thread for every history record of the fit. *)
Definition OnFit (self : AppPanel) : M GUIMonitor :=
  act (SetStatusText "Fit status: Running" 3) ;;;
  let moniter := GUIMonitor_init (ap_problem self) None None in
  let mapper := SerialMapper in
  act (MakeStore (ap_problem self)) ;;;
  act Layout ;;;
  act (StartWorker (ap_problem self) mapper) ;;;
  ret moniter.

Definition remember_best (self : AppPanel) (problem : addr) (best : pyval)
  : M unit :=
  o <- get_output problem ;;
  call (FitterSave o) (fitter_save o) ;;;
  try_pass (o <- get_output problem ;;
            call (ProblemSave o best) (problem_save problem o best)) ;;;
  o <- get_output problem ;;
  call (OpenStdout (String.append o ".out"))
       (open_file (String.append o ".out")) ;;;
  act Layout ;;;
  redraw self problem.

Definition OnFitResult (self : AppPanel) (data : pyval) : M unit :=
  act (SetStatusText "Fit status: Complete" 3) ;;;
  act (SendMessage "fit_complete" PyNone) ;;;
  match data with
  | PyNone =>
      (* Thread aborted (using our convention of None return) *)
      act (Print "Computation failed/aborted")
  | _ => remember_best self (ap_problem self) data
  end.

Definition OnUpdateModel (self : AppPanel) : M unit :=
  act (FitnessUpdate (ap_problem self)) ;;;
  redraw self (ap_problem self).

Definition OnUpdateParameters (self : AppPanel) : M unit :=
  redraw self (ap_problem self).

Definition OnUpdateDisplay (self : AppPanel) (msg : pyval) : M unit :=
  act (SendMessage "log" msg).

Definition OnUpdatePlot (self : AppPanel) (d : pyval) : M unit :=
  act (SendProblem "update_parameters" (ap_problem self)) ;;;
  redraw self (ap_problem self).

(** The messages and events the panel subscribes to, and the handler each
    one is bound to. *)
Inductive GuiEvent : Type :=
| Msg_fit
| Msg_update (msg : pyval)
| Msg_update_plot (d : pyval)
| Msg_update_model
| Msg_update_parameters
| Evt_result (data : pyval).

Definition handle (self : AppPanel) (ev : GuiEvent) : M unit :=
  match ev with
  | Msg_fit => OnFit self ;;; ret tt
  | Msg_update msg => OnUpdateDisplay self msg
  | Msg_update_plot d => OnUpdatePlot self d
  | Msg_update_model => OnUpdateModel self
  | Msg_update_parameters => OnUpdateParameters self
  | Evt_result data => OnFitResult self data
  end.

End Panel.

End app_panel.

(** Storing the best point: the calls made by [remember_best]. *)
Definition is_persistence (a : Action) : bool :=
  match a with
  | FitterSave _ | ProblemSave _ _ => true
  | _ => false
  end.

(** ** flayer.py *)

Module flayer.

Inductive Error : Type :=
| NotImplementedError (msg : string)
| TypeError (msg : string)
| AttributeError (attr : string).

Inductive Try (A : Type) : Type :=
| Done (a : A)
| Failed (e : Error).
Arguments Done {A} a.
Arguments Failed {A} e.

Definition try_bind {A B} (m : Try A) (k : A -> Try B) : Try B :=
  match m with
  | Done a => k a
  | Failed e => Failed e
  end.

(** A constructor argument: a number or a fitting parameter. *)
Inductive Arg : Type :=
| Scalar (q : Q)
| Fitted (p : FitParameter).

(** The profile function: its name, the names of its arguments as
    [inspect.getargspec] gives them, whether it is a bound method, and
    what it computes from the depths and the keyword arguments.  Densities
    are complex: a pair of the real and the imaginary part. *)
Record Profile : Type := {
  p_name : string;
  p_args : list string;
  p_ismethod : bool;
  p_call : list Q -> list (string * Q) -> list (Q * Q)
}.

(** The value of an attribute of a [FunctionProfile] object: what
    [__init__] stores, or a method of the class, bound to the object. *)
Inductive Attr : Type :=
| AStr (s : string)
| AParam (p : FitParameter)
| AProfile (f : Profile)
| ANames (ks : list string)
| AMethod (m : string).

Abbreviation Object := (gmap string Attr).
Abbreviation Keywords := (list (string * Arg)).

Section FunctionProfile.

(** [Parameter.default] and the comparison of a parameter object with 0
    belong to the parameter class; they are used as given. *)
Variable Parameter_default : Arg -> string -> FitParameter.
Variable ne_zero : FitParameter -> bool.

(** [interface != 0] *)
Definition nonzero (a : Arg) : bool :=
  match a with
  | Scalar q => negb (Qeq_bool q 0)
  | Fitted p => ne_zero p
  end.

(** [name if name else "Profile"] *)
Definition name_or_default (name : option string) : string :=
  match name with
  | Some (String c s) => String c s
  | _ => "Profile"
  end.

(** [name + suffix], where [name] may be [None]. *)
Definition plus (name : option string) (suffix : string) : Try string :=
  match name with
  | Some n => Done (String.append n suffix)
  | None =>
      Failed (TypeError "unsupported operand type(s) for +: 'NoneType' and 'str'")
  end.

Definition reserved : list string := ["thickness"; "interface"; "profile"].

(** The arguments of the profile function, without [self] and [z]. *)
Definition argnames (profile : Profile) : list string :=
  let vars := p_args profile in
  let vars := if p_ismethod profile then tail vars else vars in
  tail vars.

(** [kw.setdefault(k, v)]; the keywords are kept in the order in which the
    dictionary lists them, a new key going last. *)
Definition setdefault (kw : Keywords) (k : string) (v : Arg) : Keywords :=
  if bool_decide (k ∈ map fst kw) then kw else kw ++ [(k, v)].

(** [for k,v in kw.items(): setattr(self,k,Parameter.default(v,name=name+" "+k))] *)
Fixpoint set_parameters (name : option string) (self : Object)
    (items : Keywords) : Try Object :=
  match items with
  | [] => Done self
  | (k, v) :: rest =>
      try_bind (plus name " ") (fun n =>
      set_parameters name
        (<[k := AParam (Parameter_default v (String.append n k))]> self) rest)
  end.

Definition FunctionProfile_init (thickness interface : Arg)
    (profile : option Profile) (name : option string) (kw : Keywords)
  : Try Object :=
  if nonzero interface then
    Failed (NotImplementedError "interface not yet supported")
  else
    match profile with
    | None => Failed (TypeError "Need profile")
    | Some profile =>
        let self : Object := <["name" := AStr (name_or_default name)]> ∅ in
        try_bind (plus name " thickness") (fun n1 =>
        let self :=
          <["thickness" := AParam (Parameter_default thickness n1)]> self in
        try_bind (plus name " interface") (fun n2 =>
        let self :=
          <["interface" := AParam (Parameter_default interface n2)]> self in
        let self := <["profile" := AProfile profile]> self in
        let vars := argnames profile in
        let unused := filter (fun k => k ∉ vars) (map fst kw) in
        match unused with
        | k :: _ =>
            Failed (TypeError
              (String.append "Profile got unexpected keyword argument '"
                 (String.append k "'")))
        | [] =>
            let dups := filter (fun k => k ∈ reserved) vars in
            match dups with
            | k :: _ =>
                Failed (TypeError
                  (String.append "Profile has conflicting argument '"
                     (String.append k "'")))
            | [] =>
                let kw :=
                  fold_left (fun kw k => setdefault kw k (Scalar 0)) vars kw in
                try_bind (set_parameters name self kw) (fun self =>
                Done (<["_parameters" := ANames vars]> self))
            end
        end))
    end.

(** The functions that the class defines besides [__init__]. *)
Definition class_functions : list string := ["parameters"; "render"].

(** [getattr(self, k)] and [self.k]: the attributes of the instance come
    before those of the class.  (What the class inherits from [Layer] is
    not modelled.) *)
Definition getattr (self : Object) (k : string) : Try Attr :=
  match self !! k with
  | Some v => Done v
  | None =>
      if bool_decide (k ∈ class_functions) then Done (AMethod k)
      else Failed (AttributeError k)
  end.

(** [self._parameters], as something to iterate over. *)
Definition get_names (self : Object) : Try (list string) :=
  try_bind (getattr self "_parameters") (fun v =>
  match v with
  | ANames ks => Done ks
  | _ => Failed (TypeError "object is not iterable")
  end).

(** [dict((k, getattr(self,k)) for k in ks)], added to [P]. *)
Fixpoint collect (self : Object) (ks : list string) (P : gmap string Attr)
  : Try (gmap string Attr) :=
  match ks with
  | [] => Done P
  | k :: ks' =>
      try_bind (getattr self k) (fun v => collect self ks' (<[k := v]> P))
  end.

(** The body of [parameters] (l.60-64). *)
Definition parameters_body (self : Object) : Try (gmap string Attr) :=
  try_bind (get_names self) (fun ks =>
  try_bind (collect self ks ∅) (fun P =>
  try_bind (getattr self "thickness") (fun th =>
  Done (<["thickness" := th]> P)))).

(** [self.parameters()]: [self.parameters] is looked up, then called.  An
    attribute of the instance with that name, which [__init__] sets when
    the profile function has an argument called [parameters], hides the
    method; the parameter, string or list stored there is not callable. *)
Definition FunctionProfile_parameters (self : Object)
  : Try (gmap string Attr) :=
  try_bind (getattr self "parameters") (fun m =>
  match m with
  | AMethod _ => parameters_body self
  | _ => Failed (TypeError "object is not callable")
  end).



(** The slabs the layer is rendered into, their [microslabs] and [extend]
    methods, and [util.merge_ends] with its tolerance, are used as given. *)
Variable Slabs : Type.
Variable microslabs : Slabs -> Q -> list Q * list Q.
Variable extend : Slabs -> list (list Q) -> list (list Q) -> list Q -> Slabs.
Variable merge_ends :
  list Q -> list (Q * Q) -> float -> list Q * list (Q * Q).




End FunctionProfile.

End flayer.

(** ** Vocabulary of the properties *)

(** Feeding a stream of records to one monitor, in order. *)
Fixpoint foldM {A B : Type} (f : A -> B -> M A) (a : A) (bs : list B) : M A :=
  match bs with
  | [] => ret a
  | b :: bs' => a' <- f a b ;; foldM f a' bs'
  end.

(** The events posted among some actions. *)
Fixpoint posted (acts : list Action) : list Event :=
  match acts with
  | [] => []
  | PostEvent _ e :: rest => e :: posted rest
  | _ :: rest => posted rest
  end.

(** The [History.time] of the records on which the generic GUI monitor
    posts, when it is fed the stream [hs]. *)
Fixpoint emission_times {PM : ProgressMonitor}
    (self : fit_thread.GUIMonitor) (hs : list History) : list float :=
  match hs with
  | [] => []
  | h :: hs' =>
      let o := fit_thread.GUIMonitor_call self h ∅ in
      match res o with
      | Ok self' =>
          match out o with
          | [] => emission_times self' hs'
          | _ :: _ => h_time h :: emission_times self' hs'
          end
      | Raise _ => []
      end
  end.

(** The events that carry a given message. *)
Definition with_message (msg : string) (es : list Event) : list Event :=
  List.filter (fun e => String.eqb (event_message e) msg) es.

(** How often the [i]-th monitor was finalised among some actions. *)
Fixpoint final_calls (i : nat) (acts : list Action) : nat :=
  match acts with
  | [] => 0
  | FinalCall j :: rest =>
      (if Nat.eqb i j then 1 else 0) + final_calls i rest
  | _ :: rest => final_calls i rest
  end.

Definition is_complete (e : Event) : bool :=
  match e with
  | FitCompleteEvent _ _ _ => true
  | FitProgressEvent _ _ _ => false
  end.

Definition is_deepcopy (a : Action) : bool :=
  match a with
  | Deepcopy _ _ => true
  | _ => false
  end.

(** Every record of the run carries an uncertainty state. *)
Definition all_have_state (ss : list Step) : bool :=
  forallb fit_thread.hasattr_uncertainty_state (map record ss).

(** A computation that neither reads nor writes the store. *)
Definition heapless {A} (c : M A) : Prop :=
  forall hp, c hp = {| res := res (c ∅); heap_of := hp; out := out (c ∅) |}.

(** What a monitor may do: post a progress event, to its window, about its
    problem. *)
Definition monitor_action (w : window) (p : addr) (a : Action) : Prop :=
  exists msg kw, a = PostEvent w (FitProgressEvent p msg kw).

(** All the monitors of a chain post to the window [w] about the
    problem [p]. *)
Definition chain_of {TU : TimedUpdate} {PM : ProgressMonitor}
    (w : window) (p : addr) (ms : list fit_thread.Monitor) : Prop :=
  Forall (fun m => fit_thread.Monitor_win m = w /\
                   fit_thread.Monitor_problem m = p) ms.

(** What the finalisation loop may do: call [final] on a monitor, and what
    the monitors do. *)
Definition final_action (w : window) (p : addr) (a : Action) : Prop :=
  monitor_action w p a \/ exists j, a = FinalCall j.

(** ** A sample fit

    One parameter, three generations at times 1, 6 and 20 s, each with an
    uncertainty state. *)

Definition sample_problem : Problem :=
  {| parameters := [{| name := "thickness"; lo := 0; hi := 10; value := 0 |}];
     output := "model" |}.

Definition original : addr := 1%positive.

Definition sample_heap : Heap := {[ original := sample_problem ]}.

Definition sample_record (n : Z) (t : float) (fx x : Q) (state : option pyval)
  : History :=
  {| h_step := n; h_value := fx; h_point := [x]; h_time := t;
     uncertainty_state := state |}.

Definition sample_steps : list Step :=
  [ {| candidate := [1%Q];
       record := sample_record 1 1 4 1 (Some (PyList [1%Q])) |};
    {| candidate := [2%Q];
       record := sample_record 2 6 1 2 (Some (PyList [1%Q; 2%Q])) |};
    {| candidate := [3%Q];
       record := sample_record 3 20 0 3 (Some (PyList [1%Q; 2%Q; 3%Q])) |} ].

(** A fit that converges, and one whose algorithm raises after its third
    generation. *)
Definition converging : Algorithm :=
  {| steps := sample_steps; ending := Returns (PyList [3%Q]) (PyFloat 0) |}.

Definition failing : Algorithm :=
  {| steps := sample_steps; ending := Raises (RuntimeError "worker failed") |}.

(** A fit without any generation. *)
Definition idle : Algorithm :=
  {| steps := []; ending := Returns PyNone PyNone |}.

Definition sample_thread (fitclass : Algorithm) : fit_thread.FitThread :=
  {| fit_thread.ft_win := 7%positive;
     fit_thread.ft_problem := original;
     fit_thread.ft_fitclass := fitclass;
     fit_thread.ft_options := [];
     fit_thread.ft_mapper := Some SerialMapper |}.

(** The times at which a monitor with stored time [T] and rate [R] lets a
    record through: a record passes when its time is at least the rounded
    sum of the stored time and the rate, and its time is then the stored
    one. *)
Fixpoint throttle (T R : float) (hs : list History) : list float :=
  match hs with
  | [] => []
  | h :: hs' =>
      if ge_sum (h_time h) T R then h_time h :: throttle (h_time h) R hs'
      else throttle T R hs'
  end.

(** The [History.time] of the records on which the uncertainty monitor
    posts from its [__call__], when it is fed the stream [hs]. *)
Fixpoint dream_emission_times (self : fit_thread.DreamMonitor)
    (hs : list History) : list float :=
  match hs with
  | [] => []
  | h :: hs' =>
      let o := fit_thread.DreamMonitor_call self h ∅ in
      match res o with
      | Ok self' =>
          match out o with
          | [] => dream_emission_times self' hs'
          | _ :: _ => h_time h :: dream_emission_times self' hs'
          end
      | Raise _ => []
      end
  end.

(** Sample collaborators of the panel: a call that returns and leaves the
    store as it is, whatever it is given, and a [save] that finds the disk
    full. *)
Definition returns_at_once {A : Type} (x : A) : Effect :=
  fun hp => (None, hp).

Definition disk_full (path : string) : Effect :=
  fun hp => (Some (IOError path), hp).

(** A [problem.save] that sets the parameters of the problem to the best
    point before it fails. *)
Definition save_sets_best (a : addr) (path : string) (best : pyval) : Effect :=
  fun hp =>
    match hp !! a, best with
    | Some p, PyList pt => (Some (IOError path), <[a := setp p pt]> hp)
    | _, _ => (Some (IOError path), hp)
    end.

(** ** A sample profile layer *)

(** A sample [Parameter.default]: a parameter object is kept, a number
    gives a parameter of that value and name. *)
Definition sample_default (a : flayer.Arg) (n : string) : FitParameter :=
  match a with
  | flayer.Scalar q => {| name := n; lo := q; hi := q; value := q |}
  | flayer.Fitted p => p
  end.

(** [def blob(z, period, phase)], constant in depth. *)
Definition sample_profile : flayer.Profile :=
  {| flayer.p_name := "blob";
     flayer.p_args := ["z"; "period"; "phase"];
     flayer.p_ismethod := false;
     flayer.p_call := fun z kw => map (fun _ => (1%Q, 0%Q)) z |}.

Definition sample_layer_result : flayer.Try flayer.Object :=
  flayer.FunctionProfile_init sample_default (fun _ => true)
    (flayer.Scalar 100) (flayer.Scalar 0) (Some sample_profile)
    (Some "blob") [("period", flayer.Scalar 3)].

Definition sample_layer : flayer.Object :=
  match sample_layer_result with
  | flayer.Done self => self
  | flayer.Failed _ => ∅
  end.

(** [def curve(z, parameters, render)]: two arguments with the names of
    the methods of the layer. *)
Definition shadowing_profile : flayer.Profile :=
  {| flayer.p_name := "curve";
     flayer.p_args := ["z"; "parameters"; "render"];
     flayer.p_ismethod := false;
     flayer.p_call := fun z kw => map (fun _ => (1%Q, 0%Q)) z |}.

Definition shadowed_layer : flayer.Object :=
  match flayer.FunctionProfile_init sample_default (fun _ => true)
          (flayer.Scalar 100) (flayer.Scalar 0) (Some shadowing_profile)
          (Some "blob") [] with
  | flayer.Done self => self
  | flayer.Failed _ => ∅
  end.




(** ** Outcomes of the basic operations *)

Lemma bind_ok {A B} (m : M A) (k : A -> M B) hp a :
  res (m hp) = Ok a ->
  bind m k hp =
    {| res := res (k a (heap_of (m hp)));
       heap_of := heap_of (k a (heap_of (m hp)));
       out := out (m hp) ++ out (k a (heap_of (m hp))) |}.
Proof. intros E. unfold bind. rewrite E. reflexivity. Qed.

Lemma bind_raise {A B} (m : M A) (k : A -> M B) hp e :
  res (m hp) = Raise e ->
  bind m k hp =
    {| res := Raise e; heap_of := heap_of (m hp); out := out (m hp) |}.
Proof. intros E. unfold bind. rewrite E. reflexivity. Qed.

Lemma outcome_ext {A} (o : Outcome A) r h l :
  res o = r -> heap_of o = h -> out o = l ->
  o = {| res := r; heap_of := h; out := l |}.
Proof. destruct o. cbn. intros -> -> ->. reflexivity. Qed.

(** ** The generic GUI monitor *)

Section GUIMonitorFacts.
Context {PM : ProgressMonitor}.
Import fit_thread.

Lemma GUIMonitor_call_posts (self : GUIMonitor) h hp :
  ge_sum (h_time h) (time self) (rate self) = true ->
  GUIMonitor_call self h hp =
    {| res := Ok {| time := h_time h; rate := rate self; win := win self;
                    problem := problem self; message := message self;
                    monitor := pm_call (monitor self) h |};
       heap_of := hp;
       out := [PostEvent (win self)
                 (FitProgressEvent (problem self) (message self)
                    (pm_progress (pm_call (monitor self) h)))] |}.
Proof.
  intros L. unfold GUIMonitor_call. rewrite L. reflexivity.
Qed.

Lemma GUIMonitor_call_silent (self : GUIMonitor) h hp :
  ge_sum (h_time h) (time self) (rate self) = false ->
  GUIMonitor_call self h hp =
    {| res := Ok {| time := time self; rate := rate self; win := win self;
                    problem := problem self; message := message self;
                    monitor := pm_call (monitor self) h |};
       heap_of := hp;
       out := [] |}.
Proof.
  intros L. unfold GUIMonitor_call. rewrite L. reflexivity.
Qed.

Lemma GUIMonitor_call_cases (self : GUIMonitor) h hp :
  exists self',
    res (GUIMonitor_call self h hp) = Ok self' /\
    heap_of (GUIMonitor_call self h hp) = hp /\
    rate self' = rate self /\
    problem self' = problem self /\
    win self' = win self /\
    (ge_sum (h_time h) (time self) (rate self) = true /\
     time self' = h_time h /\
       out (GUIMonitor_call self h hp) =
         [PostEvent (win self)
            (FitProgressEvent (problem self) (message self)
               (pm_progress (monitor self')))]
     \/
     ge_sum (h_time h) (time self) (rate self) = false /\
     time self' = time self /\
       out (GUIMonitor_call self h hp) = []).
Proof.
  destruct (ge_sum (h_time h) (time self) (rate self)) eqn:E.
  - rewrite (GUIMonitor_call_posts self h hp E). simpl.
    eexists. repeat split; try reflexivity. left. repeat split; auto.
  - rewrite (GUIMonitor_call_silent self h hp E). simpl.
    eexists. repeat split; try reflexivity. right. repeat split; auto.
Qed.

End GUIMonitorFacts.

(** ** Records let through by a rate *)

(** The first record let through passes the test against the stored
    time. *)
Lemma throttle_first T R hs a :
  head (throttle T R hs) = Some a -> ge_sum a T R = true.
Proof.
  induction hs as [|h hs IH]; [discriminate|].
  cbn [throttle]. destruct (ge_sum (h_time h) T R) eqn:E.
  - cbn. intros [= <-]. exact E.
  - exact IH.
Qed.

(** Each record let through passes the test against the one let through
    before it. *)
Lemma throttle_next R hs : forall T i a b,
  throttle T R hs !! i = Some a ->
  throttle T R hs !! S i = Some b ->
  ge_sum b a R = true.
Proof.
  induction hs as [|h hs IH]; intros T i a b Hi Hj; [discriminate|].
  cbn [throttle] in Hi, Hj. destruct (ge_sum (h_time h) T R).
  - destruct i as [|i].
    + cbn in Hi, Hj. injection Hi as <-.
      apply (throttle_first (h_time h) R hs b).
      destruct (throttle (h_time h) R hs); [discriminate|].
      cbn in Hj. cbn. exact Hj.
    + cbn in Hi, Hj. apply (IH (h_time h) i a b Hi Hj).
  - apply (IH T i a b Hi Hj).
Qed.

Section Spacing.
Context {PM : ProgressMonitor}.
Import fit_thread.

Lemma emission_times_throttle hs : forall (self : GUIMonitor),
  emission_times self hs = throttle (time self) (rate self) hs.
Proof.
  induction hs as [|h hs IH]; intros self; [reflexivity|].
  destruct (GUIMonitor_call_cases self h ∅)
    as (self' & R & _ & Hr & _ & _ & [(L & T & O)|(L & T & O)]);
    cbn [emission_times throttle]; rewrite R, O, L, (IH self'), T, Hr;
    reflexivity.
Qed.

End Spacing.

(** ** Computations that do not touch the store *)

Lemma heapless_ret {A} (a : A) : heapless (ret a).
Proof. intros hp. reflexivity. Qed.

Lemma heapless_raise {A} (e : exn) : heapless (@raise A e).
Proof. intros hp. reflexivity. Qed.

Lemma heapless_act (a : Action) : heapless (act a).
Proof. intros hp. reflexivity. Qed.

Lemma heapless_bind {A B} (m : M A) (k : A -> M B) :
  heapless m -> (forall a, heapless (k a)) -> heapless (bind m k).
Proof.
  intros Hm Hk hp. unfold bind. rewrite (Hm hp). cbn [res heap_of out].
  destruct (res (m ∅)) as [a|e]; [|reflexivity].
  rewrite (Hk a hp), (Hk a (heap_of (m ∅))). reflexivity.
Qed.

Lemma heapless_res {A} (c : M A) hp : heapless c -> res (c hp) = res (c ∅).
Proof. intros H. rewrite (H hp). reflexivity. Qed.

Lemma heapless_out {A} (c : M A) hp : heapless c -> out (c hp) = out (c ∅).
Proof. intros H. rewrite (H hp). reflexivity. Qed.

Lemma heapless_heap {A} (c : M A) hp : heapless c -> heap_of (c hp) = hp.
Proof. intros H. rewrite (H hp). reflexivity. Qed.

Lemma heapless_foldM {A B} (f : A -> B -> M A) bs :
  (forall a b, heapless (f a b)) -> forall a, heapless (foldM f a bs).
Proof.
  intros Hf. induction bs as [|b bs IH]; intros a; cbn [foldM].
  - apply heapless_ret.
  - apply heapless_bind; [apply Hf|]. intros a'. apply IH.
Qed.

Section MonitorFacts.
Context {TU : TimedUpdate} {PM : ProgressMonitor}.
Import fit_thread.

Lemma run_hooks_spec (self : GUIProgressMonitor) ks :
  heapless (run_hooks self ks) /\
  res (run_hooks self ks ∅) = Ok tt /\
  Forall (monitor_action (gp_win self) (gp_problem self))
         (out (run_hooks self ks ∅)).
Proof.
  induction ks as [|k ks (IH1 & IH2 & IH3)]; cbn [run_hooks].
  - split; [apply heapless_ret|]. split; [reflexivity|constructor].
  - assert (heapless (run_hook self k)) as Hk
      by (destruct k; apply heapless_act).
    split; [apply heapless_bind; auto|].
    unfold bind. destruct k; cbn; rewrite IH2; (split; [reflexivity|]);
      (constructor; [unfold monitor_action; eauto|exact IH3]).
Qed.

Lemma heapless_Monitor_call m h : heapless (Monitor_call m h).
Proof.
  destruct m as [g|g|d]; cbn [Monitor_call].
  - apply heapless_bind; [|intros; apply heapless_ret].
    unfold GUIProgressMonitor_call. destruct (tu_call (gp_base g) h).
    apply heapless_bind; [apply run_hooks_spec|intros; apply heapless_ret].
  - apply heapless_bind; [|intros; apply heapless_ret].
    unfold GUIMonitor_call.
    destruct (ge_sum _ _ _); [|apply heapless_ret].
    apply heapless_bind; [apply heapless_act|intros; apply heapless_ret].
  - apply heapless_bind; [|intros; apply heapless_ret].
    unfold DreamMonitor_call, get_uncertainty_state.
    destruct (uncertainty_state h) eqn:E.
    + apply heapless_bind; [apply heapless_ret|]. intros v.
      destruct (_ && _); [|apply heapless_ret].
      apply heapless_bind; [apply heapless_act|intros; apply heapless_ret].
    + apply heapless_bind; [apply heapless_raise|]. intros v.
      destruct (_ && _); [|apply heapless_ret].
      apply heapless_bind; [apply heapless_act|intros; apply heapless_ret].
Qed.

Lemma heapless_feed ms h : heapless (feed ms h).
Proof.
  induction ms as [|m ms IH]; cbn [feed]; [apply heapless_ret|].
  apply heapless_bind; [apply heapless_Monitor_call|]. intros m'.
  apply heapless_bind; [exact IH|]. intros; apply heapless_ret.
Qed.

Lemma heapless_Monitor_final m : heapless (Monitor_final m).
Proof.
  destruct m as [g|g|d]; cbn [Monitor_final].
  - destruct tu_final; [apply run_hooks_spec|apply heapless_raise].
  - apply heapless_act.
  - unfold DreamMonitor_final. destruct (truthy _);
      [apply heapless_act|apply heapless_ret].
Qed.

Lemma heapless_finals ms : forall i, heapless (finals i ms).
Proof.
  induction ms as [|m ms IH]; intros i; cbn [finals]; [apply heapless_ret|].
  apply heapless_bind; [|intros; apply IH].
  destruct (hasattr_final m); [|apply heapless_ret].
  apply heapless_bind; [apply heapless_act|].
  intros; apply heapless_Monitor_final.
Qed.

End MonitorFacts.

Lemma bind_out {A B} (m : M A) (k : A -> M B) hp :
  out (bind m k hp) =
    out (m hp) ++
    match res (m hp) with
    | Ok a => out (k a (heap_of (m hp)))
    | Raise _ => []
    end.
Proof.
  unfold bind. destruct (res (m hp)); cbn [out]; [reflexivity|].
  symmetry. apply app_nil_r.
Qed.

Lemma bind_res {A B} (m : M A) (k : A -> M B) hp :
  res (bind m k hp) =
    match res (m hp) with
    | Ok a => res (k a (heap_of (m hp)))
    | Raise e => Raise e
    end.
Proof. unfold bind. destruct (res (m hp)); reflexivity. Qed.

Lemma bind_heap {A B} (m : M A) (k : A -> M B) hp :
  heap_of (bind m k hp) =
    match res (m hp) with
    | Ok a => heap_of (k a (heap_of (m hp)))
    | Raise e => heap_of (m hp)
    end.
Proof. unfold bind. destruct (res (m hp)); reflexivity. Qed.

Section ChainFacts.
Context {TU : TimedUpdate} {PM : ProgressMonitor}.
Import fit_thread.

Lemma Monitor_call_out m h :
  Forall (monitor_action (Monitor_win m) (Monitor_problem m))
         (out (Monitor_call m h ∅)).
Proof.
  destruct m as [g|g|d]; cbn [Monitor_call Monitor_win Monitor_problem];
    rewrite bind_out.
  - apply Forall_app. split.
    + unfold GUIProgressMonitor_call. destruct (tu_call (gp_base g) h) as [b ks].
      rewrite bind_out. destruct (run_hooks_spec g ks) as (_ & R & F).
      rewrite R. cbn. rewrite app_nil_r. exact F.
    + destruct (res _); constructor.
  - destruct (GUIMonitor_call_cases g h ∅)
      as (g' & R & _ & _ & _ & _ & [(_ & _ & O)|(_ & _ & O)]);
      rewrite R, O; cbn; repeat constructor. unfold monitor_action; eauto.
  - apply Forall_app. split; [|destruct (res _); constructor].
    unfold DreamMonitor_call, get_uncertainty_state.
    destruct (uncertainty_state h); [|constructor].
    rewrite bind_out. cbn.
    destruct (_ && _); cbn; repeat constructor. unfold monitor_action; eauto.
Qed.

Lemma Monitor_call_same m h m' :
  res (Monitor_call m h ∅) = Ok m' -> same_monitor m m'.
Proof.
  destruct m as [g|g|d]; cbn [Monitor_call]; rewrite bind_res.
  - unfold GUIProgressMonitor_call. destruct (tu_call (gp_base g) h) as [b ks].
    rewrite bind_res. destruct (run_hooks_spec g ks) as (_ & R & _).
    rewrite R. cbn. intros [= <-]. repeat split.
  - destruct (GUIMonitor_call_cases g h ∅)
      as (g' & R & _ & _ & P & W & _).
    rewrite R. cbn. intros [= <-]. repeat split; assumption.
  - unfold DreamMonitor_call, get_uncertainty_state.
    destruct (uncertainty_state h); [|cbn; discriminate].
    rewrite bind_res. cbn.
    destruct (_ && _); cbn; intros [= <-]; repeat split.
Qed.

Lemma Monitor_call_ok m h :
  hasattr_uncertainty_state h = true ->
  exists m', res (Monitor_call m h ∅) = Ok m'.
Proof.
  intros Hs. destruct m as [g|g|d]; cbn [Monitor_call]; rewrite bind_res.
  - unfold GUIProgressMonitor_call. destruct (tu_call (gp_base g) h) as [b ks].
    rewrite bind_res. destruct (run_hooks_spec g ks) as (_ & R & _).
    rewrite R. cbn. eauto.
  - destruct (GUIMonitor_call_cases g h ∅) as (g' & R & _).
    rewrite R. cbn. eauto.
  - unfold DreamMonitor_call, get_uncertainty_state.
    unfold hasattr_uncertainty_state in Hs.
    destruct (uncertainty_state h); [|discriminate].
    rewrite bind_res. cbn. destruct (_ && _); cbn; eauto.
Qed.

Lemma chain_of_same w p ms ms' :
  chain_of w p ms -> Forall2 same_monitor ms ms' -> chain_of w p ms'.
Proof.
  intros Hc H2. induction H2 as [|m m' ms ms' (P & W & _) _ IH].
  - constructor.
  - inversion Hc as [|? ? [Hw Hp] Hrest]; subst.
    constructor; [split; congruence|]. apply IH. exact Hrest.
Qed.

Lemma feed_out w p ms h :
  chain_of w p ms -> Forall (monitor_action w p) (out (feed ms h ∅)).
Proof.
  induction ms as [|m ms IH]; intros Hc; cbn [feed]; [constructor|].
  inversion Hc as [|? ? [Hw Hp] Hrest]; subst.
  rewrite bind_out. apply Forall_app. split; [apply Monitor_call_out|].
  destruct (res (Monitor_call m h ∅)); [|constructor].
  rewrite (heapless_heap _ _ (heapless_Monitor_call m h)).
  rewrite bind_out. apply Forall_app. split; [apply IH; exact Hrest|].
  destruct (res (feed ms h ∅)); constructor.
Qed.

Lemma feed_same ms h ms' :
  res (feed ms h ∅) = Ok ms' -> Forall2 same_monitor ms ms'.
Proof.
  revert ms'. induction ms as [|m ms IH]; intros ms'; cbn [feed].
  - cbn. intros [= <-]. constructor.
  - rewrite bind_res. destruct (res (Monitor_call m h ∅)) as [m1|] eqn:E1;
      [|discriminate].
    rewrite (heapless_heap _ _ (heapless_Monitor_call m h)).
    rewrite bind_res. destruct (res (feed ms h ∅)) as [ms1|] eqn:E2;
      [|discriminate].
    cbn. intros [= <-]. constructor; [apply (Monitor_call_same m h); exact E1|].
    apply IH. reflexivity.
Qed.

Lemma feed_ok ms h :
  hasattr_uncertainty_state h = true -> exists ms', res (feed ms h ∅) = Ok ms'.
Proof.
  intros Hs. induction ms as [|m ms [ms1 IH]]; cbn [feed].
  - cbn. eauto.
  - rewrite bind_res. destruct (Monitor_call_ok m h Hs) as [m1 E1].
    rewrite E1. rewrite (heapless_heap _ _ (heapless_Monitor_call m h)).
    rewrite bind_res, IH. cbn. eauto.
Qed.

End ChainFacts.

Lemma final_calls_app i l1 l2 :
  final_calls i (l1 ++ l2) = final_calls i l1 + final_calls i l2.
Proof.
  induction l1 as [|a l1 IH]; [reflexivity|].
  destruct a; cbn [final_calls app]; try exact IH. rewrite IH. lia.
Qed.

Lemma posted_app l1 l2 : posted (l1 ++ l2) = posted l1 ++ posted l2.
Proof.
  induction l1 as [|a l1 IH]; [reflexivity|].
  destruct a; cbn [posted app]; try exact IH. rewrite IH. reflexivity.
Qed.

Lemma monitor_actions_no_final w p l i :
  Forall (monitor_action w p) l -> final_calls i l = 0.
Proof.
  induction 1 as [|a l (msg & kw & ->) _ IH]; [reflexivity|exact IH].
Qed.

Lemma monitor_actions_posted w p l :
  Forall (monitor_action w p) l ->
  Forall (fun e => event_problem e = p /\ is_complete e = false) (posted l).
Proof.
  induction 1 as [|a l (msg & kw & ->) _ IH]; [constructor|].
  cbn [posted]. constructor; [split; reflexivity|exact IH].
Qed.

Lemma monitor_actions_no_deepcopy w p l :
  Forall (monitor_action w p) l -> Forall (fun a => is_deepcopy a = false) l.
Proof.
  induction 1 as [|a l (msg & kw & ->) _ IH]; constructor; auto.
Qed.

Section StreamFacts.
Context {TU : TimedUpdate} {PM : ProgressMonitor}.
Import fit_thread.

Lemma heapless_stream hs : forall ms, heapless (foldM feed ms hs).
Proof. apply heapless_foldM. intros; apply heapless_feed. Qed.

Lemma same_monitor_trans ms1 ms2 ms3 :
  Forall2 same_monitor ms1 ms2 -> Forall2 same_monitor ms2 ms3 ->
  Forall2 same_monitor ms1 ms3.
Proof.
  intros H12. revert ms3.
  induction H12 as [|a b l1 l2 (P & W & F) _ IH]; intros ms3 H23.
  - inversion H23. constructor.
  - inversion H23 as [|? c ? l3 (P' & W' & F') Hrest]; subst.
    constructor; [repeat split; congruence|]. apply IH. exact Hrest.
Qed.

Lemma same_monitor_refl ms : Forall2 same_monitor ms ms.
Proof. induction ms; constructor; [repeat split|assumption]. Qed.

Lemma stream_out w p hs : forall ms,
  chain_of w p ms -> Forall (monitor_action w p) (out (foldM feed ms hs ∅)).
Proof.
  induction hs as [|h hs IH]; intros ms Hc; cbn [foldM]; [constructor|].
  rewrite bind_out. apply Forall_app. split; [apply feed_out; exact Hc|].
  destruct (res (feed ms h ∅)) as [ms1|] eqn:E; [|constructor].
  rewrite (heapless_heap _ _ (heapless_feed ms h)).
  apply IH. eapply chain_of_same; [exact Hc|]. apply (feed_same ms h). exact E.
Qed.

Lemma stream_same hs : forall ms ms',
  res (foldM feed ms hs ∅) = Ok ms' -> Forall2 same_monitor ms ms'.
Proof.
  induction hs as [|h hs IH]; intros ms ms'; cbn [foldM].
  - cbn. intros [= <-]. apply same_monitor_refl.
  - rewrite bind_res. destruct (res (feed ms h ∅)) as [ms1|] eqn:E;
      [|discriminate].
    rewrite (heapless_heap _ _ (heapless_feed ms h)). intros H.
    eapply same_monitor_trans; [apply (feed_same ms h); exact E|].
    apply IH. exact H.
Qed.

Lemma stream_ok hs : forall ms,
  forallb hasattr_uncertainty_state hs = true ->
  exists ms', res (foldM feed ms hs ∅) = Ok ms'.
Proof.
  induction hs as [|h hs IH]; intros ms Hall; cbn [foldM].
  - cbn. eauto.
  - cbn [forallb] in Hall. apply andb_prop in Hall as [Hh Hall].
    rewrite bind_res. destruct (feed_ok ms h Hh) as [ms1 E]. rewrite E.
    rewrite (heapless_heap _ _ (heapless_feed ms h)). apply IH. exact Hall.
Qed.

Lemma setp_at_ok a pt hp p :
  hp !! a = Some p ->
  setp_at a pt hp =
    {| res := Ok tt; heap_of := <[a := setp p pt]> hp; out := [] |}.
Proof. intros E. unfold setp_at. rewrite E. reflexivity. Qed.

(** The generations of a fit write to the problem of the driver only, and
    the monitors see the records of the steps in order. *)
Lemma generations_spec snap ss : forall ms hp p,
  hp !! snap = Some p ->
  res (generations snap ms ss hp) = res (foldM feed ms (map record ss) ∅) /\
  out (generations snap ms ss hp) = out (foldM feed ms (map record ss) ∅) /\
  (forall a, a ≠ snap ->
     heap_of (generations snap ms ss hp) !! a = hp !! a).
Proof.
  induction ss as [|s ss IH]; intros ms hp p Hp.
  - cbn. auto.
  - cbn [generations map foldM].
    rewrite !bind_res, !bind_out, !bind_heap.
    rewrite (setp_at_ok _ _ _ _ Hp). cbn [res out heap_of app].
    set (hp1 := <[snap := setp p (candidate s)]> hp).
    rewrite ?bind_res, ?bind_out, ?bind_heap.
    rewrite (heapless_res _ hp1 (heapless_feed ms (record s))).
    rewrite (heapless_out _ hp1 (heapless_feed ms (record s))).
    rewrite !(heapless_heap _ _ (heapless_feed ms (record s))).
    assert (forall a, a ≠ snap -> hp1 !! a = hp !! a) as Hother
      by (intros a Ha; unfold hp1; apply lookup_insert_ne; congruence).
    destruct (res (feed ms (record s) ∅)) as [ms1|e].
    + assert (hp1 !! snap = Some (setp p (candidate s))) as Hp1
        by (unfold hp1; apply lookup_insert_eq).
      destruct (IH ms1 hp1 _ Hp1) as (R & O & H).
      rewrite R, O. repeat split.
      intros a Ha. rewrite (H a Ha). apply Hother. exact Ha.
    + repeat split. exact Hother.
Qed.

End StreamFacts.

Lemma final_actions_posted w p l :
  Forall (final_action w p) l ->
  Forall (fun e => event_problem e = p /\ is_complete e = false) (posted l).
Proof.
  induction 1 as [|a l [(msg & kw & ->)|(j & ->)] _ IH]; [constructor| |].
  - cbn [posted]. constructor; [split; reflexivity|exact IH].
  - exact IH.
Qed.

Lemma final_actions_no_deepcopy w p l :
  Forall (final_action w p) l -> Forall (fun a => is_deepcopy a = false) l.
Proof.
  induction 1 as [|a l [(msg & kw & ->)|(j & ->)] _ IH]; constructor; auto.
Qed.

Section FinalFacts.
Context {TU : TimedUpdate} {PM : ProgressMonitor}.
Import fit_thread.

Lemma Monitor_final_spec m :
  hasattr_final m = true ->
  res (Monitor_final m ∅) = Ok tt /\
  Forall (monitor_action (Monitor_win m) (Monitor_problem m))
         (out (Monitor_final m ∅)).
Proof.
  destruct m as [g|g|d];
    cbn [hasattr_final Monitor_final Monitor_win Monitor_problem]; intros Hf.
  - destruct tu_final as [f|]; [|discriminate].
    destruct (run_hooks_spec g (f (gp_base g))) as (_ & R & F). auto.
  - split; [reflexivity|]. repeat constructor. unfold monitor_action; eauto.
  - unfold DreamMonitor_final. destruct (truthy (dm_state d)); cbn;
      (split; [reflexivity|]); repeat constructor.
    unfold monitor_action; eauto.
Qed.

(** The step of the finalisation loop for one monitor. *)
Lemma final_step_spec i m :
  let c := if hasattr_final m then act (FinalCall i) ;;; Monitor_final m
           else ret tt in
  heapless c /\ res (c ∅) = Ok tt /\
  Forall (final_action (Monitor_win m) (Monitor_problem m)) (out (c ∅)) /\
  forall k, final_calls k (out (c ∅)) =
            if hasattr_final m && Nat.eqb k i then 1 else 0.
Proof.
  cbn zeta. destruct (hasattr_final m) eqn:Hf.
  - destruct (Monitor_final_spec m Hf) as (R & F).
    split; [apply heapless_bind;
            [apply heapless_act|intros; apply heapless_Monitor_final]|].
    rewrite bind_res, bind_out. cbn [act res out heap_of app].
    split; [exact R|]. split.
    + constructor; [right; eauto|].
      eapply Forall_impl; [exact F|]. intros a Ha. left. exact Ha.
    + intros k. cbn [final_calls andb].
      rewrite (monitor_actions_no_final _ _ _ k F).
      destruct (Nat.eqb k i); reflexivity.
  - split; [apply heapless_ret|]. cbn. repeat split; constructor.
Qed.

Lemma finals_res ms : forall i, res (finals i ms ∅) = Ok tt.
Proof.
  induction ms as [|m ms IH]; intros i; cbn [finals]; [reflexivity|].
  destruct (final_step_spec i m) as (Hl & R & _).
  rewrite bind_res, R, (heapless_heap _ _ Hl). apply IH.
Qed.

Lemma finals_out w p ms : forall i,
  chain_of w p ms -> Forall (final_action w p) (out (finals i ms ∅)).
Proof.
  induction ms as [|m ms IH]; intros i Hc; cbn [finals]; [constructor|].
  inversion Hc as [|? ? [Hw Hp] Hrest]; subst.
  destruct (final_step_spec i m) as (Hl & R & F & _).
  rewrite bind_out, R, (heapless_heap _ _ Hl).
  apply Forall_app. split; [exact F|apply IH; exact Hrest].
Qed.

Lemma finals_count_before ms : forall i k,
  k < i -> final_calls k (out (finals i ms ∅)) = 0.
Proof.
  induction ms as [|m ms IH]; intros i k Hk; cbn [finals]; [reflexivity|].
  destruct (final_step_spec i m) as (Hl & R & _ & C).
  rewrite bind_out, R, (heapless_heap _ _ Hl), final_calls_app, C.
  rewrite (IH (S i) k) by lia.
  replace (Nat.eqb k i) with false by (symmetry; apply Nat.eqb_neq; lia).
  rewrite andb_false_r. reflexivity.
Qed.

(** Each monitor that has a [final] is finalised once, the others never. *)
Lemma finals_count ms : forall i k m,
  ms !! k = Some m ->
  final_calls (i + k) (out (finals i ms ∅)) =
    if hasattr_final m then 1 else 0.
Proof.
  induction ms as [|m0 ms IH]; intros i k m Hk; [discriminate|].
  cbn [finals].
  destruct (final_step_spec i m0) as (Hl & R & _ & C).
  rewrite bind_out, R, (heapless_heap _ _ Hl), final_calls_app, C.
  destruct k as [|k].
  - cbn in Hk. injection Hk as ->.
    rewrite (finals_count_before ms (S i) (i + 0)) by lia.
    replace (Nat.eqb (i + 0) i) with true by (symmetry; apply Nat.eqb_eq; lia).
    rewrite andb_true_r. destruct (hasattr_final m); reflexivity.
  - cbn in Hk.
    replace (Nat.eqb (i + S k) i) with false
      by (symmetry; apply Nat.eqb_neq; lia).
    rewrite andb_false_r. replace (i + S k) with (S i + k) by lia.
    rewrite (IH (S i) k m Hk). reflexivity.
Qed.

Lemma finals_count_beyond ms : forall i k,
  length ms <= k -> final_calls (i + k) (out (finals i ms ∅)) = 0.
Proof.
  induction ms as [|m0 ms IH]; intros i k Hk; [reflexivity|].
  cbn [finals]. cbn [length] in Hk.
  destruct (final_step_spec i m0) as (Hl & R & _ & C).
  rewrite bind_out, R, (heapless_heap _ _ Hl), final_calls_app, C.
  destruct k as [|k]; [lia|].
  replace (Nat.eqb (i + S k) i) with false
    by (symmetry; apply Nat.eqb_neq; lia).
  rewrite andb_false_r. replace (i + S k) with (S i + k) by lia.
  apply IH. lia.
Qed.

End FinalFacts.

Section RunFacts.
Context {TU : TimedUpdate} {PM : ProgressMonitor}.
Import fit_thread.

Lemma run_monitors_chain self :
  chain_of (ft_win self) (ft_problem self) (run_monitors self).
Proof. repeat constructor. Qed.

Lemma deepcopy_ok a hp p :
  hp !! a = Some p ->
  deepcopy a hp =
    {| res := Ok (fresh (dom hp)); heap_of := <[fresh (dom hp) := p]> hp;
       out := [Deepcopy a (fresh (dom hp))] |}.
Proof. intros E. unfold deepcopy. rewrite E. reflexivity. Qed.

Lemma fresh_not_allocated (hp : Heap) a p :
  hp !! a = Some p -> fresh (dom hp) ≠ a.
Proof.
  intros E Heq. apply (is_fresh (dom hp)). rewrite Heq.
  apply elem_of_dom. eauto.
Qed.

Lemma start_mapper_eq m a hp :
  start_mapper m a hp =
    {| res := Ok (m, a); heap_of := hp; out := [StartMapper m a] |}.
Proof. reflexivity. Qed.

Lemma run_driver_ok self hp p :
  hp !! ft_problem self = Some p ->
  run_driver self hp =
    {| res := Ok {| d_fitclass := ft_fitclass self;
                    d_problem := fresh (dom hp);
                    d_monitors := run_monitors self;
                    d_mapper := (MPMapper, fresh (dom hp));
                    d_options := ft_options self |};
       heap_of := <[fresh (dom hp) := p]> hp;
       out := [Deepcopy (ft_problem self) (fresh (dom hp));
               StartMapper MPMapper (fresh (dom hp))] |}.
Proof.
  intros E. unfold run_driver, run_mapper, bind.
  rewrite (deepcopy_ok _ _ _ E). reflexivity.
Qed.

Lemma run_driver_no_problem self hp :
  hp !! ft_problem self = None ->
  run_driver self hp =
    {| res := Raise (AttributeError "__deepcopy__"); heap_of := hp;
       out := [] |}.
Proof.
  intros E. unfold run_driver, bind, deepcopy. rewrite E. reflexivity.
Qed.

Lemma run_no_problem self hp :
  hp !! ft_problem self = None ->
  FitThread_run self hp =
    {| res := Raise (AttributeError "__deepcopy__"); heap_of := hp;
       out := [] |}.
Proof.
  intros E. unfold FitThread_run, bind.
  rewrite (run_driver_no_problem _ _ E). reflexivity.
Qed.

(** The whole of a run: the copy, the mapper, the records seen by the
    monitors, and, when the fit returns, the finalisation of the monitors
    and the completion event. *)
Lemma run_decompose self hp p :
  hp !! ft_problem self = Some p ->
  let snap := fresh (dom hp) in
  let o := foldM feed (run_monitors self)
             (map record (steps (ft_fitclass self))) ∅ in
  out (FitThread_run self hp) =
    Deepcopy (ft_problem self) snap :: StartMapper MPMapper snap ::
    out o ++
    match res o, ending (ft_fitclass self) with
    | Ok ms', Returns x fx =>
        out (finals 0 ms' ∅) ++
        [PostEvent (ft_win self) (FitCompleteEvent (ft_problem self) x fx)]
    | _, _ => []
    end /\
  res (FitThread_run self hp) =
    match res o, ending (ft_fitclass self) with
    | Ok _, Returns _ _ => Ok tt
    | Ok _, Raises e => Raise e
    | Raise e, _ => Raise e
    end /\
  (forall a, a ≠ snap -> heap_of (FitThread_run self hp) !! a = hp !! a).
Proof.
  intros Hp snap o.
  assert (<[snap := p]> hp !! snap = Some p) as Hsnap
    by apply lookup_insert_eq.
  destruct (generations_spec snap (steps (ft_fitclass self))
              (run_monitors self) _ _ Hsnap) as (R & O & H).
  fold o in R, O.
  assert (forall a, a ≠ snap ->
            heap_of (generations snap (run_monitors self)
                       (steps (ft_fitclass self)) (<[snap := p]> hp)) !! a
            = hp !! a) as H'.
  { intros a Ha. rewrite (H a Ha). apply lookup_insert_ne. congruence. }
  unfold FitThread_run.
  rewrite bind_out, bind_res, bind_heap, (run_driver_ok _ _ _ Hp).
  cbn [res out heap_of app]. fold snap.
  unfold FitDriver_fit. cbn [d_problem d_monitors d_fitclass].
  rewrite ?bind_out, ?bind_res, ?bind_heap.
  rewrite ?bind_out, ?bind_res, ?bind_heap.
  rewrite !R, !O.
  destruct (res o) as [ms'|e].
  - destruct (ending (ft_fitclass self)) as [x fx|e].
    + cbn [ret res out heap_of].
      rewrite ?bind_out, ?bind_res, ?bind_heap.
      rewrite (heapless_res _ _ (heapless_finals ms' 0)),
              (heapless_out _ _ (heapless_finals ms' 0)),
              !(heapless_heap _ _ (heapless_finals ms' 0)).
      rewrite (finals_res ms' 0). cbn [act res out heap_of app].
      rewrite app_nil_r. auto.
    + cbn [raise res out heap_of]. rewrite !app_nil_r. auto.
  - rewrite !app_nil_r. auto.
Qed.

(** What the driver does, as the monitors see it. *)
Lemma fit_spec driver hp p :
  hp !! d_problem driver = Some p ->
  let o := foldM feed (d_monitors driver)
             (map record (steps (d_fitclass driver))) ∅ in
  out (FitDriver_fit driver hp) = out o /\
  res (FitDriver_fit driver hp) =
    match res o, ending (d_fitclass driver) with
    | Ok ms', Returns x fx => Ok (ms', (x, fx))
    | Ok _, Raises e => Raise e
    | Raise e, _ => Raise e
    end /\
  heap_of (FitDriver_fit driver hp) =
    heap_of (generations (d_problem driver) (d_monitors driver)
               (steps (d_fitclass driver)) hp).
Proof.
  intros Hp o.
  destruct (generations_spec (d_problem driver) (steps (d_fitclass driver))
              (d_monitors driver) hp p Hp) as (R & O & _).
  fold o in R, O. unfold FitDriver_fit.
  rewrite bind_out, bind_res, bind_heap, R, O.
  destruct (res o) as [ms'|e]; [|rewrite app_nil_r; auto].
  destruct (ending (d_fitclass driver)) as [x fx|e];
    cbn [ret raise res out heap_of]; rewrite app_nil_r; auto.
Qed.

(** [run] when the fit returns: the driver is built, the fit is run, the
    monitors are finalised, the completion event is posted. *)
Lemma run_returns self hp driver ms' x fx :
  res (run_driver self hp) = Ok driver ->
  res (FitDriver_fit driver (heap_of (run_driver self hp)))
    = Ok (ms', (x, fx)) ->
  res (FitThread_run self hp) = Ok tt /\
  heap_of (FitThread_run self hp) =
    heap_of (FitDriver_fit driver (heap_of (run_driver self hp))) /\
  out (FitThread_run self hp) =
    out (run_driver self hp) ++
    out (FitDriver_fit driver (heap_of (run_driver self hp))) ++
    out (finals 0 ms'
           (heap_of (FitDriver_fit driver (heap_of (run_driver self hp))))) ++
    [PostEvent (ft_win self) (FitCompleteEvent (ft_problem self) x fx)].
Proof.
  intros R1 R2. unfold FitThread_run.
  rewrite bind_res, bind_heap, bind_out, R1.
  rewrite bind_res, bind_heap, bind_out, R2.
  rewrite bind_res, bind_heap, bind_out.
  rewrite (heapless_res _ _ (heapless_finals ms' 0)),
          !(heapless_heap _ _ (heapless_finals ms' 0)).
  rewrite (finals_res ms' 0). cbn [act res out heap_of].
  repeat split.
Qed.

(** [run] when the fit raises: the error leaves [run] at once. *)
Lemma run_raises self hp driver e :
  res (run_driver self hp) = Ok driver ->
  res (FitDriver_fit driver (heap_of (run_driver self hp))) = Raise e ->
  res (FitThread_run self hp) = Raise e /\
  heap_of (FitThread_run self hp) =
    heap_of (FitDriver_fit driver (heap_of (run_driver self hp))) /\
  out (FitThread_run self hp) =
    out (run_driver self hp) ++
    out (FitDriver_fit driver (heap_of (run_driver self hp))).
Proof.
  intros R1 R2. unfold FitThread_run.
  rewrite bind_res, bind_heap, bind_out, R1.
  rewrite bind_res, bind_heap, bind_out, R2.
  rewrite app_nil_r. repeat split.
Qed.

(** The copy after the generations of a fit: the candidates of the
    generations that were run have been set on it, in order. *)
Lemma generations_snapshot snap ss : forall ms hp p,
  hp !! snap = Some p ->
  exists k,
    k <= length ss /\
    heap_of (generations snap ms ss hp) !! snap =
      Some (fold_left setp (map candidate (take k ss)) p) /\
    (forall ms', res (generations snap ms ss hp) = Ok ms' -> k = length ss).
Proof.
  induction ss as [|s ss IH]; intros ms hp p Hp.
  - exists 0. split; [reflexivity|]. split; [exact Hp|reflexivity].
  - cbn [generations]. rewrite !bind_res, !bind_heap.
    rewrite (setp_at_ok _ _ _ _ Hp). cbn [res out heap_of].
    set (hp1 := <[snap := setp p (candidate s)]> hp).
    assert (hp1 !! snap = Some (setp p (candidate s))) as Hp1
      by (unfold hp1; apply lookup_insert_eq).
    rewrite ?bind_res, ?bind_heap.
    rewrite ?(heapless_res _ hp1 (heapless_feed ms (record s))).
    rewrite !(heapless_heap _ _ (heapless_feed ms (record s))).
    destruct (res (feed ms (record s) ∅)) as [ms1|e].
    + destruct (IH ms1 hp1 _ Hp1) as (k & Hk & Hh & Hr).
      exists (S k). cbn [length take map fold_left].
      split; [lia|]. split; [exact Hh|].
      intros ms' E. rewrite (Hr ms' E). reflexivity.
    + exists 1. cbn [length take map fold_left].
      split; [lia|]. rewrite take_0. split; [exact Hp1|discriminate].
Qed.

(** The store after a run: the objects of the caller are as before, the
    copy is as the generations left it. *)
Lemma run_heap self hp p :
  hp !! ft_problem self = Some p ->
  heap_of (FitThread_run self hp) =
    heap_of (generations (fresh (dom hp)) (run_monitors self)
               (steps (ft_fitclass self)) (<[fresh (dom hp) := p]> hp)).
Proof.
  intros Hp.
  pose proof (run_driver_ok self hp p Hp) as D.
  set (driver := {| d_fitclass := ft_fitclass self;
                    d_problem := fresh (dom hp);
                    d_monitors := run_monitors self;
                    d_mapper := (MPMapper, fresh (dom hp));
                    d_options := ft_options self |}) in *.
  assert (res (run_driver self hp) = Ok driver) as R1 by (rewrite D; reflexivity).
  assert (heap_of (run_driver self hp) = <[fresh (dom hp) := p]> hp) as H1
    by (rewrite D; reflexivity).
  assert (<[fresh (dom hp) := p]> hp !! d_problem driver = Some p) as Hsnap
    by apply lookup_insert_eq.
  destruct (fit_spec driver _ p Hsnap) as (_ & _ & Hh).
  destruct (res (FitDriver_fit driver (heap_of (run_driver self hp))))
    as [[ms' [x fx]]|e] eqn:R2.
  - destruct (run_returns self hp driver ms' x fx R1 R2) as (_ & -> & _).
    rewrite H1. exact Hh.
  - destruct (run_raises self hp driver e R1 R2) as (_ & -> & _).
    rewrite H1. exact Hh.
Qed.

End RunFacts.

(** ** The uncertainty monitor *)

Section DreamMonitorFacts.
Import fit_thread.

Lemma DreamMonitor_call_spec (self : DreamMonitor) h v hp :
  uncertainty_state h = Some v ->
  exists self',
    res (DreamMonitor_call self h hp) = Ok self' /\
    heap_of (DreamMonitor_call self h hp) = hp /\
    dm_state self' = v /\
    dm_win self' = dm_win self /\
    dm_problem self' = dm_problem self /\
    dm_rate self' = dm_rate self.
Proof.
  intros E. unfold DreamMonitor_call, get_uncertainty_state.
  rewrite E. rewrite bind_res, bind_heap. cbn [ret res heap_of].
  destruct (_ && _); cbn; eexists; repeat split; reflexivity.
Qed.

Lemma DreamMonitor_stream_spec hs : forall (self : DreamMonitor) hp,
  forallb hasattr_uncertainty_state hs = true ->
  exists self',
    res (foldM DreamMonitor_call self hs hp) = Ok self' /\
    heap_of (foldM DreamMonitor_call self hs hp) = hp /\
    dm_win self' = dm_win self /\
    dm_problem self' = dm_problem self.
Proof.
  induction hs as [|h hs IH]; intros self hp Hall.
  - exists self. cbn. auto.
  - cbn [forallb] in Hall. apply andb_prop in Hall as [Hh Hall].
    unfold hasattr_uncertainty_state in Hh.
    destruct (uncertainty_state h) as [v|] eqn:E; [|discriminate].
    destruct (DreamMonitor_call_spec self h v hp E)
      as (self1 & R & H & _ & W & P & _).
    cbn [foldM]. rewrite bind_res, bind_heap, R, H.
    destruct (IH self1 hp Hall) as (self' & R' & H' & W' & P').
    exists self'. repeat split; congruence.
Qed.

Lemma foldM_app {A B} (f : A -> B -> M A) bs1 : forall a bs2 hp a1,
  res (foldM f a bs1 hp) = Ok a1 ->
  res (foldM f a (bs1 ++ bs2) hp) =
    res (foldM f a1 bs2 (heap_of (foldM f a bs1 hp))) /\
  heap_of (foldM f a (bs1 ++ bs2) hp) =
    heap_of (foldM f a1 bs2 (heap_of (foldM f a bs1 hp))).
Proof.
  induction bs1 as [|b bs1 IH]; intros a bs2 hp a1.
  - cbn. intros [= <-]. auto.
  - cbn [foldM app]. rewrite !bind_res, !bind_heap.
    destruct (res (f a b hp)) as [a'|e]; [|discriminate].
    apply IH.
Qed.

End DreamMonitorFacts.

Section DreamThrottle.
Import fit_thread.

(** One call of the uncertainty monitor on a record that has a state. *)
Lemma DreamMonitor_call_cases (self : DreamMonitor) h v hp :
  uncertainty_state h = Some v ->
  exists self',
    res (DreamMonitor_call self h hp) = Ok self' /\
    dm_rate self' = dm_rate self /\
    dm_state self' = v /\
    (ge_sum (h_time h) (dm_time self) (dm_rate self) = true /\
     dm_time self' = h_time h /\
     out (DreamMonitor_call self h hp) =
       [PostEvent (dm_win self)
          (FitProgressEvent (dm_problem self) "uncertainty_update"
             [("state", v)])]
     \/
     ge_sum (h_time h) (dm_time self) (dm_rate self) = false /\
     dm_time self' = dm_time self /\
     out (DreamMonitor_call self h hp) = []).
Proof.
  intros E. unfold DreamMonitor_call, get_uncertainty_state.
  unfold hasattr_uncertainty_state. rewrite E.
  rewrite bind_res, bind_out. cbn [ret res out heap_of app dm_time dm_rate].
  rewrite andb_true_r.
  destruct (ge_sum (h_time h) (dm_time self) (dm_rate self)) eqn:L.
  - cbn. eexists. repeat split; try reflexivity.
    left. repeat split.
  - cbn. eexists. repeat split; try reflexivity.
    right. repeat split.
Qed.

Lemma dream_emission_times_throttle hs : forall (self : DreamMonitor),
  forallb hasattr_uncertainty_state hs = true ->
  dream_emission_times self hs = throttle (dm_time self) (dm_rate self) hs.
Proof.
  induction hs as [|h hs IH]; intros self Hall; [reflexivity|].
  cbn [forallb] in Hall. apply andb_prop in Hall as [Hh Hall].
  unfold hasattr_uncertainty_state in Hh.
  destruct (uncertainty_state h) as [v|] eqn:E; [|discriminate].
  destruct (DreamMonitor_call_cases self h v ∅ E)
    as (self' & R & Hr & _ & [(L & T & O)|(L & T & O)]);
    cbn [dream_emission_times throttle]; rewrite R, O, L, (IH self' Hall), T, Hr;
    reflexivity.
Qed.

End DreamThrottle.

Section GUIMonitorStream.
Context {PM : ProgressMonitor}.
Import fit_thread.

Lemma GUIMonitor_call_fields (self : GUIMonitor) h hp :
  exists self',
    res (GUIMonitor_call self h hp) = Ok self' /\
    heap_of (GUIMonitor_call self h hp) = hp /\
    win self' = win self /\ problem self' = problem self /\
    message self' = message self /\
    monitor self' = pm_call (monitor self) h.
Proof.
  destruct (ge_sum (h_time h) (time self) (rate self)) eqn:E.
  - rewrite (GUIMonitor_call_posts self h hp E).
    eexists. repeat split.
  - rewrite (GUIMonitor_call_silent self h hp E).
    eexists. repeat split.
Qed.

Lemma GUIMonitor_stream_fields hs : forall (self : GUIMonitor) hp,
  exists self',
    res (foldM GUIMonitor_call self hs hp) = Ok self' /\
    win self' = win self /\ problem self' = problem self /\
    message self' = message self /\
    monitor self' = fold_left pm_call hs (monitor self).
Proof.
  induction hs as [|h hs IH]; intros self hp.
  - exists self. repeat split.
  - destruct (GUIMonitor_call_fields self h hp)
      as (self1 & R & H & W & P & Mg & Mo).
    cbn [foldM fold_left]. rewrite bind_res, R, H.
    destruct (IH self1 hp) as (self' & R' & W' & P' & Mg' & Mo').
    exists self'. rewrite R'. repeat split; congruence.
Qed.

End GUIMonitorStream.


(** C8.  A history record without the [uncertainty_state] attribute makes
    the call of the uncertainty monitor raise [AttributeError]: the
    attribute is read by the first statement, before the [hasattr] guard is
    looked at, whatever the time of the record and the state of the monitor;
    nothing is posted. *)
Theorem C8_DreamMonitor_call_without_state_raises
    (self : fit_thread.DreamMonitor) (history : History) (hp : Heap) :
  fit_thread.hasattr_uncertainty_state history = false ->
  res (fit_thread.DreamMonitor_call self history hp)
    = Raise (AttributeError "uncertainty_state") /\
  out (fit_thread.DreamMonitor_call self history hp) = [] /\
  heap_of (fit_thread.DreamMonitor_call self history hp) = hp.
Proof.
  unfold fit_thread.hasattr_uncertainty_state.
  unfold fit_thread.DreamMonitor_call, fit_thread.get_uncertainty_state.
  destruct (uncertainty_state history) as [v|]; [discriminate|].
  intros _. cbn. auto.
Qed.

Lemma C8_witness :
  res (fit_thread.DreamMonitor_call
         (fit_thread.DreamMonitor_init 7%positive original
            "uncertainty_update" converging (Some 15%float))
         (sample_record 1 20 4 1 None) sample_heap)
    = Raise (AttributeError "uncertainty_state").
Proof.
  apply (C8_DreamMonitor_call_without_state_raises
           (fit_thread.DreamMonitor_init 7%positive original
              "uncertainty_update" converging (Some 15%float))
           (sample_record 1 20 4 1 None) sample_heap).
  reflexivity.
Defined.

(** C5, as the code has it.  The uncertainty monitor keeps the state of
    every record it is called on; after a stream whose records all carry a
    state, the kept state is the one of the last record, and [final] posts
    one [uncertainty_update] event carrying a copy of it exactly when that
    state is true as a Python value ([if self.state:]), whatever the times
    of the records, so also when no periodic event was posted; when the
    state is false ([None], empty) [final] posts nothing. *)
Theorem C5_DreamMonitor_final_posts_kept_state
    (self : fit_thread.DreamMonitor) (hs : list History) (h : History)
    (v : pyval) (hp : Heap) :
  forallb fit_thread.hasattr_uncertainty_state hs = true ->
  uncertainty_state h = Some v ->
  exists self',
    res (foldM fit_thread.DreamMonitor_call self (hs ++ [h]) hp) = Ok self' /\
    fit_thread.dm_state self' = v /\
    out (fit_thread.DreamMonitor_final self' hp) =
      if truthy v then
        [PostEvent (fit_thread.dm_win self)
           (FitProgressEvent (fit_thread.dm_problem self)
              "uncertainty_update" [("state", v)])]
      else [].
Proof.
  intros Hall Hv.
  destruct (DreamMonitor_stream_spec hs self hp Hall)
    as (self1 & R1 & H1 & W1 & P1).
  destruct (foldM_app fit_thread.DreamMonitor_call hs self [h] hp self1 R1)
    as (R & _).
  rewrite H1 in R. cbn [foldM] in R. rewrite bind_res in R.
  destruct (DreamMonitor_call_spec self1 h v hp Hv)
    as (self' & R' & H' & S' & W' & P' & _).
  rewrite R' in R. cbn in R.
  exists self'. split; [exact R|]. split; [exact S'|].
  unfold fit_thread.DreamMonitor_final. rewrite S'.
  destruct (truthy v); [|reflexivity].
  cbn. unfold deepcopy_val. rewrite W', P', W1, P1. reflexivity.
Qed.

Lemma C5_witness :
  exists self',
    res (foldM fit_thread.DreamMonitor_call
           (fit_thread.DreamMonitor_init 7%positive original
              "uncertainty_update" converging (Some 15%float))
           ([sample_record 1 1 4 1 (Some (PyList [1%Q]))] ++
            [sample_record 2 6 1 2 (Some (PyList [1%Q; 2%Q]))]) sample_heap)
      = Ok self' /\
    fit_thread.dm_state self' = PyList [1%Q; 2%Q] /\
    out (fit_thread.DreamMonitor_final self' sample_heap) =
      [PostEvent 7%positive
         (FitProgressEvent original "uncertainty_update"
            [("state", PyList [1%Q; 2%Q])])].
Proof.
  apply (C5_DreamMonitor_final_posts_kept_state
           (fit_thread.DreamMonitor_init 7%positive original
              "uncertainty_update" converging (Some 15%float))
           [sample_record 1 1 4 1 (Some (PyList [1%Q]))]
           (sample_record 2 6 1 2 (Some (PyList [1%Q; 2%Q])))
           (PyList [1%Q; 2%Q]) sample_heap);
    reflexivity.
Defined.

(** C5, as the claim has it, fails: a record whose uncertainty state is an
    empty sequence is observed and kept, no periodic event is posted, and
    [final] posts nothing. *)
Lemma C5_counterexample :
  let self := fit_thread.DreamMonitor_init 7%positive original
                "uncertainty_update" converging (Some 15%float) in
  let h := sample_record 1 1 4 1 (Some (PyList [])) in
  exists self',
    res (fit_thread.DreamMonitor_call self h sample_heap) = Ok self' /\
    out (fit_thread.DreamMonitor_call self h sample_heap) = [] /\
    uncertainty_state h = Some (PyList []) /\
    fit_thread.dm_state self' = PyList [] /\
    out (fit_thread.DreamMonitor_final self' sample_heap) = [].
Proof.
  cbn zeta. eexists. split; [vm_compute; reflexivity|].
  repeat split.
Qed.


Lemma py_or_given (q d : float) :
  PrimFloat.eqb q 0 = false -> py_or (Some q) d = q.
Proof. intros Hq. unfold py_or. rewrite Hq. reflexivity. Qed.

Section ConvergenceEvents.
Context {TU : TimedUpdate} {PM : ProgressMonitor}.
Import fit_thread.

Lemma with_message_app msg l1 l2 :
  with_message msg (l1 ++ l2) = with_message msg l1 ++ with_message msg l2.
Proof. unfold with_message. apply List.filter_app. Qed.

Lemma run_hooks_messages (g : GUIProgressMonitor) ks :
  with_message "convergence_update" (posted (out (run_hooks g ks ∅))) = [] /\
  with_message "uncertainty_update" (posted (out (run_hooks g ks ∅))) = [].
Proof.
  induction ks as [|k ks (IH1 & IH2)]; [split; reflexivity|].
  cbn [run_hooks]. rewrite bind_out.
  assert (res (run_hook g k ∅) = Ok tt) as -> by (destruct k; reflexivity).
  rewrite posted_app, !with_message_app.
  assert (heap_of (run_hook g k ∅) = ∅) as -> by (destruct k; reflexivity).
  rewrite IH1, IH2. destruct k; split; reflexivity.
Qed.

Lemma GUIProgressMonitor_call_ok (g : GUIProgressMonitor) h :
  exists g',
    res (GUIProgressMonitor_call g h ∅) = Ok g' /\
    with_message "convergence_update"
      (posted (out (GUIProgressMonitor_call g h ∅))) = [].
Proof.
  unfold GUIProgressMonitor_call. destruct (tu_call (gp_base g) h) as [b ks].
  rewrite bind_res, bind_out.
  destruct (run_hooks_spec g ks) as (_ & R & _). rewrite R. cbn [res out ret].
  eexists. split; [reflexivity|]. rewrite app_nil_r.
  apply run_hooks_messages.
Qed.

Lemma feed_cons m ms h m' ms' :
  res (Monitor_call m h ∅) = Ok m' ->
  res (feed ms h ∅) = Ok ms' ->
  res (feed (m :: ms) h ∅) = Ok (m' :: ms') /\
  out (feed (m :: ms) h ∅) = out (Monitor_call m h ∅) ++ out (feed ms h ∅).
Proof.
  intros Hm Hms. cbn [feed].
  rewrite bind_res, bind_out, Hm.
  rewrite (heapless_heap _ _ (heapless_Monitor_call m h)).
  rewrite bind_res, bind_out, Hms. cbn [ret res out].
  rewrite app_nil_r. split; reflexivity.
Qed.

Lemma Monitor_call_wrap {A} (c : M A) (f : A -> Monitor) a :
  res (c ∅) = Ok a ->
  res (bind c (fun x => ret (f x)) ∅) = Ok (f a) /\
  out (bind c (fun x => ret (f x)) ∅) = out (c ∅).
Proof.
  intros Hc. rewrite bind_res, bind_out, Hc. cbn [ret res out].
  rewrite app_nil_r. split; reflexivity.
Qed.

(** One record through the chain of a run: the convergence events are
    those of the generic monitor, called alone. *)
Lemma feed_convergence (gp : GUIProgressMonitor) (g : GUIMonitor)
    (d : DreamMonitor) h :
  message g = "convergence_update" ->
  hasattr_uncertainty_state h = true ->
  exists gp' g' d',
    res (feed [MGUIProgress gp; MGUI g; MDream d] h ∅)
      = Ok [MGUIProgress gp'; MGUI g'; MDream d'] /\
    res (GUIMonitor_call g h ∅) = Ok g' /\
    message g' = "convergence_update" /\
    with_message "convergence_update"
      (posted (out (feed [MGUIProgress gp; MGUI g; MDream d] h ∅))) =
    posted (out (GUIMonitor_call g h ∅)).
Proof.
  intros Hm Hs.
  destruct (GUIProgressMonitor_call_ok gp h) as (gp' & Rp & Ep).
  destruct (GUIMonitor_call_fields g h ∅) as (g' & Rg & _ & _ & _ & Mg & _).
  unfold hasattr_uncertainty_state in Hs.
  destruct (uncertainty_state h) as [v|] eqn:Ev; [|discriminate].
  destruct (DreamMonitor_call_cases d h v ∅ Ev)
    as (d' & Rd & _ & _ & Hd).
  exists gp', g', d'.
  destruct (Monitor_call_wrap _ MGUIProgress _ Rp) as (Rp1 & Op1).
  destruct (Monitor_call_wrap _ MGUI _ Rg) as (Rg1 & Og1).
  destruct (Monitor_call_wrap _ MDream _ Rd) as (Rd1 & Od1).
  destruct (feed_cons (MDream d) [] h (MDream d') [] Rd1 eq_refl)
    as (R3 & O3).
  destruct (feed_cons (MGUI g) _ h _ _ Rg1 R3) as (R2 & O2).
  destruct (feed_cons (MGUIProgress gp) _ h _ _ Rp1 R2) as (R1 & O1).
  split; [exact R1|]. split; [exact Rg|]. split; [congruence|].
  rewrite O1, O2, O3. cbn [Monitor_call]. rewrite Op1, Og1, Od1.
  cbn [feed ret out]. rewrite app_nil_r.
  rewrite !posted_app, !with_message_app, Ep. cbn [app].
  assert (with_message "convergence_update"
            (posted (out (DreamMonitor_call d h ∅))) = []) as ->.
  { destruct Hd as [(_ & _ & ->)|(_ & _ & ->)]; reflexivity. }
  rewrite app_nil_r.
  destruct (GUIMonitor_call_cases g h ∅)
    as (g'' & _ & _ & _ & _ & _ & [(_ & _ & ->)|(_ & _ & ->)]);
    [|reflexivity].
  cbn [posted with_message List.filter event_message]. rewrite Hm.
  reflexivity.
Qed.

Lemma stream_convergence hs : forall (gp : GUIProgressMonitor)
    (g : GUIMonitor) (d : DreamMonitor),
  message g = "convergence_update" ->
  forallb hasattr_uncertainty_state hs = true ->
  exists gp' g' d',
    res (foldM feed [MGUIProgress gp; MGUI g; MDream d] hs ∅)
      = Ok [MGUIProgress gp'; MGUI g'; MDream d'] /\
    res (foldM GUIMonitor_call g hs ∅) = Ok g' /\
    with_message "convergence_update"
      (posted (out (foldM feed [MGUIProgress gp; MGUI g; MDream d] hs ∅))) =
    posted (out (foldM GUIMonitor_call g hs ∅)).
Proof.
  induction hs as [|h hs IH]; intros gp g d Hm Hall.
  - exists gp, g, d. repeat split.
  - cbn [forallb] in Hall. apply andb_prop in Hall as [Hh Hall].
    destruct (feed_convergence gp g d h Hm Hh)
      as (gp1 & g1 & d1 & Rf & Rg & Hm1 & E).
    destruct (IH gp1 g1 d1 Hm1 Hall) as (gp' & g' & d' & Rs & Rs' & Es).
    exists gp', g', d'.
    cbn [foldM]. rewrite !bind_res, !bind_out, Rf, Rg.
    rewrite (heapless_heap _ _ (heapless_feed _ h)).
    destruct (GUIMonitor_call_fields g h ∅) as (g2 & Rg2 & Hg2 & _).
    rewrite Hg2. split; [exact Rs|]. split; [exact Rs'|].
    rewrite !posted_app, with_message_app, E, Es. reflexivity.
Qed.

End ConvergenceEvents.

(** C4, as the code has it.  A generic GUI monitor built with rate [r]
    starts with a stored time of 0 and a rate of [r] (10 when [r] is
    missing or zero).  A call posts one event exactly when the float test
    [history.time[0] >= self.time + self.rate] passes, the sum being
    rounded, and the stored time then becomes the time of the record;
    otherwise nothing is posted and the stored time is kept.  So the first
    event comes on a record that passes the test against 0, and every
    later event on a record that passes the test against the time of the
    event before it.  In the chain of a run the state of the monitor and
    its convergence events are those of the monitor fed the stream alone:
    the progress and the uncertainty monitor, with their own timers, do not
    change them. *)
Theorem C4_GUIMonitor_rate_limit {TU : TimedUpdate} {PM : ProgressMonitor}
    (w : window) (p : addr) (msg : string) (inner : pm_state)
    (r : option float) (hs : list History) :
  let m0 := fit_thread.GUIMonitor_init w p msg inner r in
  (fit_thread.time m0 = 0%float /\ fit_thread.rate m0 = py_or r 10 /\
   forall q, r = Some q -> PrimFloat.eqb q 0 = false ->
             fit_thread.rate m0 = q) /\
  (forall (self : fit_thread.GUIMonitor) h hp, exists self',
     res (fit_thread.GUIMonitor_call self h hp) = Ok self' /\
     fit_thread.rate self' = fit_thread.rate self /\
     (PrimFloat.leb
        (PrimFloat.add (fit_thread.time self) (fit_thread.rate self))
        (h_time h) = true /\
      fit_thread.time self' = h_time h /\
      out (fit_thread.GUIMonitor_call self h hp) =
        [PostEvent (fit_thread.win self)
           (FitProgressEvent (fit_thread.problem self)
              (fit_thread.message self)
              (pm_progress (fit_thread.monitor self')))]
      \/
      PrimFloat.leb
        (PrimFloat.add (fit_thread.time self) (fit_thread.rate self))
        (h_time h) = false /\
      fit_thread.time self' = fit_thread.time self /\
      out (fit_thread.GUIMonitor_call self h hp) = [])) /\
  emission_times m0 hs = throttle 0 (fit_thread.rate m0) hs /\
  (forall a, head (emission_times m0 hs) = Some a ->
     PrimFloat.leb (PrimFloat.add 0 (fit_thread.rate m0)) a = true) /\
  (forall i a b,
     emission_times m0 hs !! i = Some a ->
     emission_times m0 hs !! S i = Some b ->
     PrimFloat.leb (PrimFloat.add a (fit_thread.rate m0)) b = true) /\
  (forall (self : fit_thread.FitThread),
     forallb fit_thread.hasattr_uncertainty_state hs = true ->
     exists gp' g' d',
       res (foldM fit_thread.feed (fit_thread.run_monitors self) hs ∅) =
         Ok [fit_thread.MGUIProgress gp'; fit_thread.MGUI g';
             fit_thread.MDream d'] /\
       res (foldM fit_thread.GUIMonitor_call
              (fit_thread.GUIMonitor_init (fit_thread.ft_win self)
                 (fit_thread.ft_problem self) "convergence_update"
                 pm_new (Some 5%float)) hs ∅) = Ok g' /\
       with_message "convergence_update"
         (posted (out (foldM fit_thread.feed (fit_thread.run_monitors self)
                         hs ∅))) =
       posted (out (foldM fit_thread.GUIMonitor_call
                      (fit_thread.GUIMonitor_init (fit_thread.ft_win self)
                         (fit_thread.ft_problem self) "convergence_update"
                         pm_new (Some 5%float)) hs ∅))).
Proof.
  intros m0.
  pose proof (emission_times_throttle hs m0) as E.
  split; [|split; [|split; [|split; [|split]]]].
  - split; [reflexivity|]. split; [reflexivity|].
    intros q -> Hq. apply py_or_given. exact Hq.
  - intros self h hp.
    destruct (GUIMonitor_call_cases self h hp)
      as (self' & R & _ & Hr & _ & _ & Hc).
    exists self'. auto.
  - exact E.
  - intros a Ha. rewrite E in Ha. apply (throttle_first _ _ _ _ Ha).
  - intros i a b Ha Hb. rewrite E in Ha, Hb.
    apply (throttle_next _ _ _ _ _ _ Ha Hb).
  - intros self Hall. apply stream_convergence; [reflexivity|exact Hall].
Qed.

Lemma C4_witness :
  let m0 := @fit_thread.GUIMonitor_init SpecConvergenceMonitor
              7%positive original "convergence_update" [] (Some 5%float) in
  emission_times m0 (map record sample_steps) = [6%float; 20%float] /\
  PrimFloat.leb (PrimFloat.add 6 5) 20 = true /\
  with_message "convergence_update"
    (posted (out (foldM (@fit_thread.feed SpecTimedUpdate
                           SpecConvergenceMonitor)
                    (@fit_thread.run_monitors SpecTimedUpdate
                       SpecConvergenceMonitor (sample_thread converging))
                    (map record sample_steps) ∅))) =
  [FitProgressEvent original "convergence_update" [("pop", PyList [1; 4]%Q)];
   FitProgressEvent original "convergence_update"
     [("pop", PyList [0; 1; 4]%Q)]].
Proof.
  intros m0.
  destruct (@C4_GUIMonitor_rate_limit SpecTimedUpdate SpecConvergenceMonitor
              7%positive original "convergence_update" [] (Some 5%float)
              (map record sample_steps))
    as (_ & _ & E & _ & N & I).
  fold m0 in E, N.
  split; [rewrite E; reflexivity|].
  split; [apply (N 0%nat); rewrite E; reflexivity|].
  destruct (I (sample_thread converging) eq_refl) as (gp' & g' & d' & _ & _ & ->).
  reflexivity.
Defined.

(** C4, as the claim has it, fails: at a rate of 5 the monitor posts on a
    record of time 5.2 and again on a record of time 10.2, since the sum
    5.2 + 5 is rounded to 10.2; the two times, as the floats have them, are
    less than 5 apart. *)
Lemma C4_counterexample :
  let t1 := 0x1.4cccccccccccdp+2%float in
  let t2 := 0x1.4666666666666p+3%float in
  let m0 := @fit_thread.GUIMonitor_init SpecConvergenceMonitor
              7%positive original "convergence_update" [] (Some 5%float) in
  emission_times m0
    [sample_record 1 t1 4 1 None; sample_record 2 t2 1 2 None] = [t1; t2] /\
  exact_value t1 = Some (5854679515581645 # 1125899906842624)%Q /\
  exact_value t2 = Some (5742089524897382 # 562949953421312)%Q /\
  ((5742089524897382 # 562949953421312) -
   (5854679515581645 # 1125899906842624) < 5)%Q.
Proof.
  cbn zeta. split; [vm_compute; reflexivity|].
  split; [vm_compute; reflexivity|].
  split; [vm_compute; reflexivity|].
  vm_compute. reflexivity.
Qed.

(** ** The run of the fit thread *)

Section RunProperties.
Context {TU : TimedUpdate} {PM : ProgressMonitor}.
Import fit_thread.

(** The objects of the caller, the original problem among them, are left
    as they are by a run of the fit thread: the generations write to the
    copy. *)
Lemma run_preserves_caller_objects self hp a :
  is_Some (hp !! a) -> heap_of (FitThread_run self hp) !! a = hp !! a.
Proof.
  intros [q Hq].
  destruct (hp !! ft_problem self) as [p|] eqn:Hp.
  - destruct (run_decompose self hp p Hp) as (_ & _ & H).
    apply H. intros ->. exact (fresh_not_allocated hp _ q Hq eq_refl).
  - rewrite (run_no_problem self hp Hp). reflexivity.
Qed.

Lemma run_stream_ok self :
  all_have_state (steps (ft_fitclass self)) = true ->
  exists ms',
    res (foldM feed (run_monitors self)
           (map record (steps (ft_fitclass self))) ∅) = Ok ms' /\
    Forall2 same_monitor (run_monitors self) ms' /\
    chain_of (ft_win self) (ft_problem self) ms'.
Proof.
  intros Hall. destruct (stream_ok _ (run_monitors self) Hall) as [ms' R].
  exists ms'. split; [exact R|].
  pose proof (stream_same _ _ _ R) as Hsame. split; [exact Hsame|].
  eapply chain_of_same; [apply run_monitors_chain|exact Hsame].
Qed.

Lemma run_stream_out self :
  Forall (monitor_action (ft_win self) (ft_problem self))
    (out (foldM feed (run_monitors self)
            (map record (steps (ft_fitclass self))) ∅)).
Proof. apply stream_out. apply run_monitors_chain. Qed.

Lemma finals_count_same ms ms' i m :
  Forall2 same_monitor ms ms' ->
  ms !! i = Some m ->
  final_calls i (out (finals 0 ms' ∅)) = if hasattr_final m then 1 else 0.
Proof.
  intros Hsame Hi.
  destruct (Forall2_lookup_l _ _ _ _ _ Hsame Hi) as (m' & Hi' & _ & _ & Hf).
  rewrite <- Hf. apply (finals_count ms' 0 i m' Hi').
Qed.

Lemma primary_edits_spec a edits : forall hp p,
  hp !! a = Some p ->
  primary_edits a edits hp =
    {| res := Ok tt; heap_of := <[a := fold_left setp edits p]> hp;
       out := [] |}.
Proof.
  induction edits as [|pt edits IH]; intros hp p Hp; cbn [primary_edits].
  - cbn. rewrite insert_id by exact Hp. reflexivity.
  - unfold bind. rewrite (setp_at_ok _ _ _ _ Hp). cbn [res heap_of out].
    rewrite (IH _ (setp p pt)) by apply lookup_insert_eq.
    cbn. rewrite insert_insert_eq. reflexivity.
Qed.

End RunProperties.

(** C2, as the code has it.  When the problem exists and every record
    carries an uncertainty state (so that no monitor raises): if the
    algorithm returns, the actions of the run are, in this order, those of
    the construction of the driver, those of [driver.fit()], in which the
    records are handled, those of the finalisation loop, and the posting of
    the completion event; no [final] is called before the loop, and in the
    loop the [final] of each registered monitor that has one is called
    exactly once (never for a monitor without [final]); if the algorithm
    raises, no [final] is called at all. *)
Theorem C2_final_once_when_fit_returns
    {TU : TimedUpdate} {PM : ProgressMonitor}
    (self : fit_thread.FitThread) (hp : Heap) (p : Problem) :
  hp !! fit_thread.ft_problem self = Some p ->
  all_have_state (steps (fit_thread.ft_fitclass self)) = true ->
  match ending (fit_thread.ft_fitclass self) with
  | Returns x fx =>
      (forall i m, fit_thread.run_monitors self !! i = Some m ->
         final_calls i (out (fit_thread.FitThread_run self hp)) =
           if fit_thread.hasattr_final m then 1 else 0) /\
      final_calls 1 (out (fit_thread.FitThread_run self hp)) = 1 /\
      final_calls 2 (out (fit_thread.FitThread_run self hp)) = 1 /\
      exists driver ms',
        let o1 := fit_thread.run_driver self hp in
        let o2 := fit_thread.FitDriver_fit driver (heap_of o1) in
        let o3 := fit_thread.finals 0 ms' (heap_of o2) in
        res o1 = Ok driver /\
        res o2 = Ok (ms', (x, fx)) /\
        out (fit_thread.FitThread_run self hp) =
          out o1 ++ out o2 ++ out o3 ++
          [PostEvent (fit_thread.ft_win self)
             (FitCompleteEvent (fit_thread.ft_problem self) x fx)] /\
        out o2 =
          out (foldM fit_thread.feed (fit_thread.run_monitors self)
                 (map record (steps (fit_thread.ft_fitclass self))) ∅) /\
        (forall i, final_calls i (out o1) = 0) /\
        (forall i, final_calls i (out o2) = 0) /\
        (forall i m, fit_thread.run_monitors self !! i = Some m ->
           final_calls i (out o3) =
             if fit_thread.hasattr_final m then 1 else 0) /\
        Forall (final_action (fit_thread.ft_win self)
                  (fit_thread.ft_problem self)) (out o3)
  | Raises e =>
      res (fit_thread.FitThread_run self hp) = Raise e /\
      forall i, final_calls i (out (fit_thread.FitThread_run self hp)) = 0
  end.
Proof.
  intros Hp Hall.
  destruct (run_decompose self hp p Hp) as (O & R & _).
  destruct (run_stream_ok self Hall) as (ms' & Rs & Hsame & Hchain).
  pose proof (run_stream_out self) as Hout.
  rewrite Rs in O, R.
  pose proof (run_driver_ok self hp p Hp) as D.
  set (driver := {| fit_thread.d_fitclass := fit_thread.ft_fitclass self;
                    fit_thread.d_problem := fresh (dom hp);
                    fit_thread.d_monitors := fit_thread.run_monitors self;
                    fit_thread.d_mapper := (MPMapper, fresh (dom hp));
                    fit_thread.d_options := fit_thread.ft_options self |})
    in *.
  assert (<[fresh (dom hp) := p]> hp !! fit_thread.d_problem driver = Some p)
    as Hsnap by apply lookup_insert_eq.
  destruct (fit_spec driver _ p Hsnap) as (O2 & R2 & _).
  cbn [fit_thread.d_monitors fit_thread.d_fitclass driver] in O2, R2.
  rewrite Rs in R2.
  destruct (ending (fit_thread.ft_fitclass self)) as [x fx|e].
  - assert (forall i m, fit_thread.run_monitors self !! i = Some m ->
              final_calls i (out (fit_thread.FitThread_run self hp)) =
                if fit_thread.hasattr_final m then 1 else 0) as Hcount.
    { intros i m Hi. rewrite O. cbn [final_calls].
      rewrite !final_calls_app.
      rewrite (monitor_actions_no_final _ _ _ i Hout).
      rewrite (finals_count_same _ ms' i m Hsame Hi). cbn. lia. }
    split; [exact Hcount|].
    split; [exact (Hcount 1 _ eq_refl)|].
    split; [exact (Hcount 2 _ eq_refl)|].
    exists driver, ms'. cbn zeta.
    assert (res (fit_thread.run_driver self hp) = Ok driver) as R1
      by (rewrite D; reflexivity).
    assert (heap_of (fit_thread.run_driver self hp)
            = <[fresh (dom hp) := p]> hp) as H1 by (rewrite D; reflexivity).
    rewrite H1.
    assert (res (fit_thread.FitDriver_fit driver
                   (heap_of (fit_thread.run_driver self hp)))
            = Ok (ms', (x, fx))) as R2' by (rewrite H1; exact R2).
    destruct (run_returns self hp driver ms' x fx R1 R2') as (_ & _ & Or).
    rewrite H1 in Or.
    split; [exact R1|]. split; [exact R2|]. split; [exact Or|].
    split; [exact O2|].
    split; [intros i; rewrite D; reflexivity|].
    split; [intros i; rewrite O2;
            apply (monitor_actions_no_final _ _ _ i Hout)|].
    rewrite (heapless_out _ _ (heapless_finals ms' 0)).
    split; [|apply finals_out; exact Hchain].
    intros i m Hi. apply (finals_count_same _ ms' i m Hsame Hi).
  - split; [exact R|]. intros i. rewrite O, app_nil_r. cbn [final_calls].
    apply (monitor_actions_no_final _ _ _ i Hout).
Qed.

Lemma C2_witness :
  final_calls 1
    (out (@fit_thread.FitThread_run SpecTimedUpdate SpecConvergenceMonitor
            (sample_thread converging) sample_heap)) = 1 /\
  final_calls 2
    (out (@fit_thread.FitThread_run SpecTimedUpdate SpecConvergenceMonitor
            (sample_thread converging) sample_heap)) = 1.
Proof.
  pose proof (@C2_final_once_when_fit_returns SpecTimedUpdate
                SpecConvergenceMonitor (sample_thread converging)
                sample_heap sample_problem eq_refl eq_refl) as H.
  cbn [ending converging sample_thread fit_thread.ft_fitclass] in H.
  destruct H as (_ & H1 & H2 & _). split; [exact H1|exact H2].
Defined.

(** C2, as the claim has it, fails: when the algorithm raises after its
    third generation, the error leaves [run] and the [final] of the
    convergence monitor and of the uncertainty monitor, which both have
    one, is never called. *)
Lemma C2_counterexample :
  let o := @fit_thread.FitThread_run SpecTimedUpdate SpecConvergenceMonitor
             (sample_thread failing) sample_heap in
  res o = Raise (RuntimeError "worker failed") /\
  (exists m,
     @fit_thread.run_monitors SpecTimedUpdate SpecConvergenceMonitor
       (sample_thread failing) !! 1 = Some m /\
     @fit_thread.hasattr_final SpecTimedUpdate SpecConvergenceMonitor m
       = true) /\
  final_calls 0 (out o) = 0 /\
  final_calls 1 (out o) = 0 /\
  final_calls 2 (out o) = 0.
Proof.
  cbn zeta. split; [vm_compute; reflexivity|].
  split; [eexists; split; reflexivity|].
  repeat split; vm_compute; reflexivity.
Qed.




(** C6, as the code has it.  In a fit session the problem is copied exactly
    once, and the copy is made by [run], in the thread: after the
    constructor has started the thread (and after whatever the primary
    context did to the original in between), and before the mapper is
    started and the driver is built and run.  The copy is a new object.
    What the primary context wrote to the original after the start of the
    thread is in the copy: after the session the original holds these
    edits, and the copy holds them with, on top, the candidates of the
    generations that were run (all of them when no monitor raised). *)
Theorem C6_snapshot_once_inside_run
    {TU : TimedUpdate} {PM : ProgressMonitor}
    (w : window) (problem : addr) (fitclass : Algorithm)
    (options : list (string * pyval)) (mapper : option MapperClass)
    (edits : list (list Q)) (hp : Heap) (p : Problem) :
  hp !! problem = Some p ->
  exists snap tail k,
    out (fit_thread.session w problem fitclass options mapper edits hp) =
      ThreadStart :: Deepcopy problem snap :: StartMapper MPMapper snap ::
      tail /\
    snap ≠ problem /\
    hp !! snap = None /\
    Forall (fun a => is_deepcopy a = false) tail /\
    length (List.filter is_deepcopy
              (out (fit_thread.session w problem fitclass options mapper
                      edits hp))) = 1 /\
    heap_of (fit_thread.session w problem fitclass options mapper edits hp)
      !! problem = Some (fold_left setp edits p) /\
    heap_of (fit_thread.session w problem fitclass options mapper edits hp)
      !! snap =
      Some (fold_left setp (map candidate (take k (steps fitclass)))
              (fold_left setp edits p)) /\
    k <= length (steps fitclass) /\
    (all_have_state (steps fitclass) = true -> k = length (steps fitclass)).
Proof.
  intros Hp.
  set (self := {| fit_thread.ft_win := w; fit_thread.ft_problem := problem;
                  fit_thread.ft_fitclass := fitclass;
                  fit_thread.ft_options := options;
                  fit_thread.ft_mapper := mapper |}).
  set (hp1 := <[problem := fold_left setp edits p]> hp).
  assert (hp1 !! fit_thread.ft_problem self = Some (fold_left setp edits p))
    as Hp1 by apply lookup_insert_eq.
  destruct (run_decompose self hp1 _ Hp1) as (O & _ & Hother).
  assert (out (fit_thread.session w problem fitclass options mapper edits hp)
          = ThreadStart :: out (fit_thread.FitThread_run self hp1)) as E.
  { unfold fit_thread.session, fit_thread.FitThread_init.
    rewrite bind_out. cbn [bind act ret res out heap_of app].
    rewrite bind_out, (primary_edits_spec _ _ _ _ Hp).
    cbn [res out heap_of app]. reflexivity. }
  assert (heap_of (fit_thread.session w problem fitclass options mapper
                     edits hp)
          = heap_of (fit_thread.FitThread_run self hp1)) as Eh.
  { unfold fit_thread.session, fit_thread.FitThread_init.
    rewrite bind_heap. cbn [bind act ret res out heap_of app].
    rewrite bind_heap, (primary_edits_spec _ _ _ _ Hp).
    cbn [res out heap_of app]. reflexivity. }
  set (tail := out (foldM fit_thread.feed (fit_thread.run_monitors self)
                      (map record (steps (fit_thread.ft_fitclass self))) ∅) ++
               match res (foldM fit_thread.feed (fit_thread.run_monitors self)
                            (map record (steps (fit_thread.ft_fitclass self)))
                            ∅),
                     ending (fit_thread.ft_fitclass self) with
               | Ok ms', Returns x fx =>
                   out (fit_thread.finals 0 ms' ∅) ++
                   [PostEvent (fit_thread.ft_win self)
                      (FitCompleteEvent (fit_thread.ft_problem self) x fx)]
               | _, _ => []
               end) in *.
  assert (Forall (fun a => is_deepcopy a = false) tail) as Htail.
  { unfold tail. apply Forall_app. split.
    - eapply monitor_actions_no_deepcopy. apply run_stream_out.
    - destruct (res _) as [ms'|] eqn:Rs; [|constructor].
      destruct (ending _); [|constructor].
      apply Forall_app. split; [|repeat constructor].
      eapply final_actions_no_deepcopy. apply finals_out.
      eapply chain_of_same; [apply run_monitors_chain|].
      apply (stream_same _ _ _ Rs). }
  pose proof (fresh_not_allocated hp1 _ _ Hp1) as Hne.
  assert (<[fresh (dom hp1) := fold_left setp edits p]> hp1
            !! fresh (dom hp1) = Some (fold_left setp edits p)) as Hsnap
    by apply lookup_insert_eq.
  destruct (generations_snapshot (fresh (dom hp1)) (steps fitclass)
              (fit_thread.run_monitors self) _ _ Hsnap)
    as (k & Hk & Hh & Hr).
  exists (fresh (dom hp1)), tail, k. rewrite E, O, Eh.
  split; [reflexivity|].
  split; [exact Hne|].
  split.
  { destruct (hp !! fresh (dom hp1)) eqn:Hx; [|reflexivity].
    exfalso. apply (is_fresh (dom hp1)). apply elem_of_dom.
    unfold hp1. rewrite lookup_insert_ne by (intros Heq; apply Hne;
      symmetry; exact Heq). eauto. }
  split; [exact Htail|].
  split.
  { cbn [List.filter is_deepcopy length]. f_equal.
    clear -Htail. induction Htail as [|a l Ha _ IH]; [reflexivity|].
    cbn [List.filter]. rewrite Ha. exact IH. }
  split.
  { rewrite (Hother problem) by (intros Heq; apply Hne; symmetry; exact Heq).
    exact Hp1. }
  split.
  { rewrite (run_heap self hp1 _ Hp1). exact Hh. }
  split; [exact Hk|].
  intros Hall.
  destruct (stream_ok _ (fit_thread.run_monitors self) Hall) as [ms' Rs].
  destruct (generations_spec (fresh (dom hp1)) (steps fitclass)
              (fit_thread.run_monitors self) _ _ Hsnap) as (Rg & _ & _).
  rewrite Rs in Rg. exact (Hr ms' Rg).
Qed.

Lemma C6_witness :
  exists snap tail,
    out (@fit_thread.session SpecTimedUpdate SpecConvergenceMonitor
           7%positive original idle [] None [[5%Q]] sample_heap) =
      ThreadStart :: Deepcopy original snap :: StartMapper MPMapper snap ::
      tail /\
    snap ≠ original /\
    getp <$> heap_of
      (@fit_thread.session SpecTimedUpdate SpecConvergenceMonitor
         7%positive original idle [] None [[5%Q]] sample_heap) !! snap
    = Some [5%Q].
Proof.
  destruct (@C6_snapshot_once_inside_run SpecTimedUpdate
              SpecConvergenceMonitor 7%positive original idle [] None
              [[5%Q]] sample_heap sample_problem eq_refl)
    as (snap & tail & k & E & N & _ & _ & _ & _ & Hs & _ & Hk).
  exists snap, tail. split; [exact E|]. split; [exact N|].
  rewrite Hs, (Hk eq_refl). reflexivity.
Defined.

(** C6, as the claim has it, fails: the thread is started first and the
    copy is made afterwards; a change made to the original by the primary
    context after the start (here the parameter set to 5, from 0) is what
    the copy holds. *)
Lemma C6_counterexample :
  let o := @fit_thread.session SpecTimedUpdate SpecConvergenceMonitor
             7%positive original idle [] None [[5%Q]] sample_heap in
  out o !! 0 = Some ThreadStart /\
  out o !! 1 = Some (Deepcopy original 2%positive) /\
  getp <$> sample_heap !! original = Some [0%Q] /\
  getp <$> heap_of o !! 2%positive = Some [5%Q].
Proof.
  cbn zeta. repeat split; vm_compute; reflexivity.
Qed.


(** C10.  Every event posted by a run (progress, improvement, convergence,
    uncertainty and completion events alike) carries the problem the thread
    was created with; the copy that the fit works on is another object, and
    it is only known to the mapper and the driver. *)
Theorem C10_events_carry_original_problem
    {TU : TimedUpdate} {PM : ProgressMonitor}
    (self : fit_thread.FitThread) (hp : Heap) :
  Forall (fun e => event_problem e = fit_thread.ft_problem self)
         (posted (out (fit_thread.FitThread_run self hp))) /\
  Forall (fun a => match a with
                   | Deepcopy src snap =>
                       src = fit_thread.ft_problem self /\
                       snap ≠ fit_thread.ft_problem self /\
                       Forall (fun e => event_problem e ≠ snap)
                         (posted (out (fit_thread.FitThread_run self hp)))
                   | _ => True
                   end)
         (out (fit_thread.FitThread_run self hp)).
Proof.
  assert (Forall (fun e => event_problem e = fit_thread.ft_problem self)
            (posted (out (fit_thread.FitThread_run self hp)))) as Hev.
  { destruct (hp !! fit_thread.ft_problem self) as [p|] eqn:Hp.
    - destruct (run_decompose self hp p Hp) as (O & _ & _). rewrite O.
      cbn [posted]. rewrite posted_app. apply Forall_app. split.
      + pose proof (monitor_actions_posted _ _ _ (run_stream_out self)) as H.
        eapply Forall_impl; [exact H|]. intros e [He _]. exact He.
      + destruct (res _) as [ms'|] eqn:Rs; [|constructor].
        destruct (ending _); [|constructor].
        rewrite posted_app. apply Forall_app. split; [|repeat constructor].
        assert (chain_of (fit_thread.ft_win self)
                  (fit_thread.ft_problem self) ms') as Hc.
        { eapply chain_of_same; [apply run_monitors_chain|].
          apply (stream_same _ _ _ Rs). }
        pose proof (final_actions_posted _ _ _ (finals_out _ _ ms' 0 Hc)) as H.
        eapply Forall_impl; [exact H|]. intros e [He _]. exact He.
    - rewrite (run_no_problem self hp Hp). constructor. }
  split; [exact Hev|].
  destruct (hp !! fit_thread.ft_problem self) as [p|] eqn:Hp.
  - destruct (run_decompose self hp p Hp) as (O & _ & _).
    pose proof (fresh_not_allocated hp _ _ Hp) as Hne.
    rewrite O at 1. constructor.
    { split; [reflexivity|]. split; [exact Hne|].
      eapply Forall_impl; [exact Hev|]. intros e ->. congruence. }
    constructor; [exact I|].
    apply Forall_app. split.
    + eapply Forall_impl; [exact (run_stream_out self)|].
      intros a (msg & kw & ->). exact I.
    + destruct (res _) as [ms'|] eqn:Rs; [|constructor].
      destruct (ending _); [|constructor].
      apply Forall_app. split; [|repeat constructor].
      assert (chain_of (fit_thread.ft_win self)
                (fit_thread.ft_problem self) ms') as Hc.
      { eapply chain_of_same; [apply run_monitors_chain|].
        apply (stream_same _ _ _ Rs). }
      eapply Forall_impl; [exact (finals_out _ _ ms' 0 Hc)|].
      intros a [(msg & kw & ->)|(j & ->)]; exact I.
  - rewrite (run_no_problem self hp Hp). constructor.
Qed.

(** ** The application panel *)

Section PanelFacts.
Context {TU : TimedUpdate}.
Variable summarize : list FitParameter -> string.
Import app_panel.

(** [show_improvement] writes the point of the record into the problem the
    monitor was built with. *)
Lemma show_improvement_sets_parameters (self : GUIMonitor) h hp p :
  hp !! problem self = Some p ->
  res (show_improvement summarize self h hp) = Ok tt /\
  heap_of (show_improvement summarize self h hp) =
    <[problem self := setp p (h_point h)]> hp /\
  out (show_improvement summarize self h hp) =
    [SendMessage "update_plot"
       (PyStr (summarize (parameters (setp p (h_point h)))))].
Proof.
  intros Hp. unfold show_improvement, bind.
  rewrite (setp_at_ok _ _ _ _ Hp). cbn [res heap_of out].
  unfold get_parameters. rewrite lookup_insert_eq. cbn. auto.
Qed.

Lemma OnFit_monitor_problem (self : AppPanel) hp :
  exists moniter,
    res (OnFit self hp) = Ok moniter /\ problem moniter = ap_problem self /\
    heap_of (OnFit self hp) = hp.
Proof. eexists. cbn. repeat split. Qed.

End PanelFacts.

(** C1 fails on the monitor of the application panel.  [OnFit] builds its
    monitor on the problem of the panel itself, not on a copy, and the
    worker thread calls that monitor during the fit; when the monitor shows
    an improvement, it writes the point of the record into that problem:
    the parameter that the caller reads through the original goes from 0
    to 3.  This holds whatever [TimedUpdate] is, as soon as it calls
    [show_improvement], and the [TimedUpdate] modelled from the
    specification does so on the first record. *)
Theorem C1_app_panel_monitor_writes_original
    {TU : TimedUpdate} (summarize : list FitParameter -> string)
    (str_int : Z -> string) (str_float : Q -> string) (nice : Q -> Q) :
  let panel := {| app_panel.ap_problem := original |} in
  let h := sample_record 3 20 0 3 None in
  let direct :=
    (moniter <- app_panel.OnFit panel ;;
     app_panel.show_improvement summarize moniter h) sample_heap in
  let called :=
    (moniter <- @app_panel.OnFit SpecTimedUpdate panel ;;
     @app_panel.GUIMonitor_call SpecTimedUpdate str_int str_float nice
       summarize moniter h) sample_heap in
  getp <$> sample_heap !! original = Some [0%Q] /\
  res direct = Ok tt /\
  getp <$> heap_of direct !! original = Some [3%Q] /\
  getp <$> heap_of called !! original = Some [3%Q].
Proof.
  cbn zeta. split; [reflexivity|]. split; [reflexivity|].
  split; reflexivity.
Qed.

(** The same fit run through the fit thread leaves the original as it
    was. *)
Lemma fit_thread_leaves_original {TU : TimedUpdate} {PM : ProgressMonitor} :
  heap_of (fit_thread.FitThread_run (sample_thread converging) sample_heap)
    !! original = sample_heap !! original.
Proof. apply run_preserves_caller_objects. eexists. reflexivity. Qed.

Section ResultFacts.
Context {TU : TimedUpdate}.
Variable fitter_save : string -> Effect.
Variable problem_save : addr -> string -> pyval -> Effect.
Variable open_file : string -> Effect.
Variable draw : addr -> Effect.
Import app_panel.

Lemma get_output_ok a hp p :
  hp !! a = Some p ->
  get_output a hp = {| res := Ok (output p); heap_of := hp; out := [] |}.
Proof. intros E. unfold get_output. rewrite E. reflexivity. Qed.

Lemma get_output_silent a hp :
  out (get_output a hp) = [] /\ heap_of (get_output a hp) = hp.
Proof. unfold get_output. destruct (hp !! a); split; reflexivity. Qed.

Lemma call_eq (a : Action) (c : Effect) hp :
  call a c hp =
    {| res := match fst (c hp) with None => Ok tt | Some e => Raise e end;
       heap_of := snd (c hp); out := [a] |}.
Proof. reflexivity. Qed.

(** The guarded save of the problem: the call is made, and an exception
    it raises is dropped. *)
Lemma guarded_save_eq a best hp p :
  hp !! a = Some p ->
  try_pass (o <- get_output a ;;
            call (ProblemSave o best) (problem_save a o best)) hp =
    {| res := Ok tt; heap_of := snd (problem_save a (output p) best hp);
       out := [ProblemSave (output p) best] |}.
Proof.
  intros Hp. unfold try_pass.
  rewrite bind_out, bind_heap, (get_output_ok _ _ _ Hp).
  cbn [res heap_of out app]. rewrite call_eq. reflexivity.
Qed.

Lemma guarded_save_out a best hp :
  Forall (fun x => x ≠ Print "Computation failed/aborted")
    (out (try_pass (o <- get_output a ;;
                    call (ProblemSave o best) (problem_save a o best)) hp)).
Proof.
  unfold try_pass. cbn [out]. rewrite bind_out.
  rewrite (proj1 (get_output_silent a hp)). cbn [app].
  destruct (res (get_output a hp)); [|constructor].
  cbn [call out]. constructor; [discriminate|constructor].
Qed.

(** [remember_best] never prints the failure message. *)
Lemma remember_best_no_print (self : AppPanel) a best hp :
  Forall (fun x => x ≠ Print "Computation failed/aborted")
    (out (remember_best fitter_save problem_save open_file draw
            self a best hp)).
Proof.
  unfold remember_best.
  rewrite bind_out, (proj1 (get_output_silent a hp)). cbn [app].
  destruct (res (get_output a hp)) as [o|]; [|constructor].
  rewrite bind_out. cbn [call out res app].
  constructor; [discriminate|].
  destruct (fst (fitter_save o _)); [constructor|].
  rewrite bind_out. apply Forall_app. split; [apply guarded_save_out|].
  cbn [try_pass res heap_of].
  rewrite bind_out. rewrite (proj1 (get_output_silent a _)). cbn [app].
  destruct (res (get_output a _)) as [o2|]; [|constructor].
  rewrite bind_out. cbn [call out res app].
  constructor; [discriminate|].
  destruct (fst (open_file _ _)); [constructor|].
  rewrite bind_out. cbn [act out res app heap_of].
  constructor; [discriminate|].
  unfold redraw. cbn [call out]. constructor; [discriminate|constructor].
Qed.

(** [remember_best] when [fitter.save] raises. *)
Lemma remember_best_fitter_raises (self : AppPanel) a best hp p e :
  hp !! a = Some p ->
  fst (fitter_save (output p) hp) = Some e ->
  remember_best fitter_save problem_save open_file draw self a best hp =
    {| res := Raise e; heap_of := snd (fitter_save (output p) hp);
       out := [FitterSave (output p)] |}.
Proof.
  intros Hp He. unfold remember_best.
  apply outcome_ext.
  - rewrite bind_res, (get_output_ok _ _ _ Hp). cbn [res heap_of out].
    rewrite bind_res, call_eq. cbn [res heap_of out]. rewrite He. reflexivity.
  - rewrite bind_heap, (get_output_ok _ _ _ Hp). cbn [res heap_of out].
    rewrite bind_heap, call_eq. cbn [res heap_of out]. rewrite He. reflexivity.
  - rewrite bind_out, (get_output_ok _ _ _ Hp). cbn [res heap_of out app].
    rewrite bind_out, call_eq. cbn [res heap_of out app]. rewrite He.
    reflexivity.
Qed.

(** [remember_best] when [fitter.save] returns: whatever [problem.save]
    does, [open] is called next, on the store that [problem.save] left. *)
Lemma remember_best_fitter_returns (self : AppPanel) a best hp p p1 p2 :
  hp !! a = Some p ->
  fst (fitter_save (output p) hp) = None ->
  let hp1 := snd (fitter_save (output p) hp) in
  hp1 !! a = Some p1 ->
  let hp2 := snd (problem_save a (output p1) best hp1) in
  hp2 !! a = Some p2 ->
  let path := String.append (output p2) ".out" in
  let hp3 := snd (open_file path hp2) in
  remember_best fitter_save problem_save open_file draw self a best hp =
    {| res := match fst (open_file path hp2) with
              | Some e => Raise e
              | None =>
                  match fst (draw a hp3) with
                  | Some e => Raise e
                  | None => Ok tt
                  end
              end;
       heap_of := match fst (open_file path hp2) with
                  | Some _ => hp3
                  | None => snd (draw a hp3)
                  end;
       out := FitterSave (output p) :: ProblemSave (output p1) best ::
              OpenStdout path ::
              match fst (open_file path hp2) with
              | Some _ => []
              | None => [Layout; Redraw a]
              end |}.
Proof.
  intros Hp Hf hp1 Hp1 hp2 Hp2 path hp3. unfold remember_best.
  apply outcome_ext.
  - rewrite bind_res, (get_output_ok _ _ _ Hp). cbn [res heap_of out].
    rewrite bind_res, call_eq. cbn [res heap_of out]. rewrite Hf.
    fold hp1. rewrite bind_res, (guarded_save_eq _ _ _ _ Hp1).
    cbn [res heap_of out]. fold hp2.
    rewrite bind_res, (get_output_ok _ _ _ Hp2). cbn [res heap_of out].
    rewrite bind_res, call_eq. cbn [res heap_of out]. fold path.
    destruct (fst (open_file path hp2)) as [e|]; reflexivity.
  - rewrite bind_heap, (get_output_ok _ _ _ Hp). cbn [res heap_of out].
    rewrite bind_heap, call_eq. cbn [res heap_of out]. rewrite Hf.
    fold hp1. rewrite bind_heap, (guarded_save_eq _ _ _ _ Hp1).
    cbn [res heap_of out]. fold hp2.
    rewrite bind_heap, (get_output_ok _ _ _ Hp2). cbn [res heap_of out].
    rewrite bind_heap, call_eq. cbn [res heap_of out]. fold path.
    destruct (fst (open_file path hp2)) as [e|]; reflexivity.
  - rewrite bind_out, (get_output_ok _ _ _ Hp). cbn [res heap_of out app].
    rewrite bind_out, call_eq. cbn [res heap_of out app]. rewrite Hf.
    fold hp1. rewrite bind_out, (guarded_save_eq _ _ _ _ Hp1).
    cbn [res heap_of out app]. fold hp2.
    rewrite bind_out, (get_output_ok _ _ _ Hp2). cbn [res heap_of out app].
    rewrite bind_out, call_eq. cbn [res heap_of out app]. fold path.
    destruct (fst (open_file path hp2)) as [e|]; reflexivity.
Qed.

(** [remember_best] calls [fitter.save] first, and hands the best point to
    [problem.save] once [fitter.save] has returned. *)
Lemma remember_best_out (self : AppPanel) a best hp p :
  hp !! a = Some p ->
  exists tail,
    out (remember_best fitter_save problem_save open_file draw
           self a best hp) = FitterSave (output p) :: tail /\
    match fst (fitter_save (output p) hp) with
    | Some e =>
        tail = [] /\
        res (remember_best fitter_save problem_save open_file draw
               self a best hp) = Raise e
    | None =>
        forall p1, snd (fitter_save (output p) hp) !! a = Some p1 ->
        exists tail', tail = ProblemSave (output p1) best :: tail'
    end.
Proof.
  intros Hp.
  destruct (fst (fitter_save (output p) hp)) as [e|] eqn:Hf.
  - rewrite (remember_best_fitter_raises self a best hp p e Hp Hf).
    exists []. split; [reflexivity|]. split; reflexivity.
  - unfold remember_best.
    rewrite bind_out, (get_output_ok _ _ _ Hp). cbn [res heap_of out app].
    rewrite bind_out, call_eq. cbn [res heap_of out app]. rewrite Hf.
    eexists. split; [reflexivity|].
    intros p1 Hp1. rewrite bind_out, (guarded_save_eq _ _ _ _ Hp1).
    cbn [res heap_of out app]. eexists. reflexivity.
Qed.

Lemma OnFitResult_out (self : AppPanel) data hp :
  out (OnFitResult fitter_save problem_save open_file draw self data hp) =
    SetStatusText "Fit status: Complete" 3 ::
    SendMessage "fit_complete" PyNone ::
    match data with
    | PyNone => [Print "Computation failed/aborted"]
    | _ => out (remember_best fitter_save problem_save open_file draw self
                  (ap_problem self) data hp)
    end.
Proof.
  unfold OnFitResult. rewrite !bind_out. cbn [act res out heap_of app].
  destruct data; reflexivity.
Qed.

Lemma OnFitResult_res (self : AppPanel) data hp :
  res (OnFitResult fitter_save problem_save open_file draw self data hp) =
    match data with
    | PyNone => Ok tt
    | _ => res (remember_best fitter_save problem_save open_file draw self
                  (ap_problem self) data hp)
    end.
Proof.
  unfold OnFitResult. rewrite !bind_res. cbn [act res out heap_of].
  destruct data; reflexivity.
Qed.

End ResultFacts.

(** C7, as the code has it.  On the fit result event the panel tells
    completion from abort by the payload alone.  With [None] it prints the
    failure and stores nothing.  With any other payload it calls
    [remember_best] and prints no failure: [fitter.save] is called with the
    output of the problem; if that call raises, the error leaves the
    handler and nothing more is done; if it returns, [problem.save] is
    called next, with the output of the problem and the payload as best
    point.  No other message or event handled by the panel stores
    anything. *)
Theorem C7_result_event_persistence {TU : TimedUpdate}
    (fitter_save : string -> Effect)
    (problem_save : addr -> string -> pyval -> Effect)
    (open_file : string -> Effect) (draw : addr -> Effect)
    (self : app_panel.AppPanel) (data : pyval) (hp : Heap) (p : Problem) :
  hp !! app_panel.ap_problem self = Some p ->
  let o := app_panel.OnFitResult fitter_save problem_save open_file draw
             self data hp in
  match data with
  | PyNone =>
      res o = Ok tt /\
      out o = [SetStatusText "Fit status: Complete" 3;
               SendMessage "fit_complete" PyNone;
               Print "Computation failed/aborted"] /\
      Forall (fun a => is_persistence a = false) (out o)
  | best =>
      exists tail,
        out o = SetStatusText "Fit status: Complete" 3 ::
                SendMessage "fit_complete" PyNone ::
                FitterSave (output p) :: tail /\
        Forall (fun a => a ≠ Print "Computation failed/aborted") (out o) /\
        match fst (fitter_save (output p) hp) with
        | Some e => tail = [] /\ res o = Raise e
        | None =>
            forall p1,
              snd (fitter_save (output p) hp) !! app_panel.ap_problem self
                = Some p1 ->
              exists tail', tail = ProblemSave (output p1) best :: tail'
        end
  end /\
  forall ev hp',
    Exists (fun a => is_persistence a = true)
      (out (app_panel.handle fitter_save problem_save open_file draw
              self ev hp')) ->
    exists best, ev = app_panel.Evt_result best /\ best ≠ PyNone.
Proof.
  intros Hp o. split.
  - unfold o. rewrite OnFitResult_out, OnFitResult_res.
    assert (forall best, exists tail,
              SetStatusText "Fit status: Complete" 3 ::
              SendMessage "fit_complete" PyNone ::
              out (app_panel.remember_best fitter_save problem_save open_file
                     draw self (app_panel.ap_problem self) best hp) =
              SetStatusText "Fit status: Complete" 3 ::
              SendMessage "fit_complete" PyNone ::
              FitterSave (output p) :: tail /\
              Forall (fun a => a ≠ Print "Computation failed/aborted")
                (SetStatusText "Fit status: Complete" 3 ::
                 SendMessage "fit_complete" PyNone ::
                 out (app_panel.remember_best fitter_save problem_save
                        open_file draw self (app_panel.ap_problem self)
                        best hp))
              /\
              match fst (fitter_save (output p) hp) with
              | Some e =>
                  tail = [] /\
                  res (app_panel.remember_best fitter_save problem_save
                         open_file draw self (app_panel.ap_problem self)
                         best hp) = Raise e
              | None =>
                  forall p1,
                    snd (fitter_save (output p) hp)
                      !! app_panel.ap_problem self = Some p1 ->
                    exists tail', tail = ProblemSave (output p1) best :: tail'
              end)
      as Hbest.
    { intros best.
      pose proof (remember_best_no_print fitter_save problem_save open_file
                    draw self (app_panel.ap_problem self) best hp) as F.
      destruct (remember_best_out fitter_save problem_save open_file draw
                  self _ best hp p Hp) as (tail & E & S).
      exists tail. split; [rewrite E; reflexivity|].
      split; [repeat (constructor; [discriminate|]); exact F|exact S]. }
    destruct data; try apply Hbest.
    split; [reflexivity|]. split; [reflexivity|]. repeat constructor.
  - intros ev hp' Hex. destruct ev as [|msg|d| | |best].
    + exfalso. cbn in Hex.
      repeat (apply Exists_cons in Hex as [Hex|Hex]; [discriminate|]).
      inversion Hex.
    + exfalso. cbn in Hex.
      repeat (apply Exists_cons in Hex as [Hex|Hex]; [discriminate|]).
      inversion Hex.
    + exfalso. cbn in Hex.
      repeat (apply Exists_cons in Hex as [Hex|Hex]; [discriminate|]).
      inversion Hex.
    + exfalso. cbn in Hex.
      repeat (apply Exists_cons in Hex as [Hex|Hex]; [discriminate|]).
      inversion Hex.
    + exfalso. cbn in Hex.
      repeat (apply Exists_cons in Hex as [Hex|Hex]; [discriminate|]).
      inversion Hex.
    + exists best. split; [reflexivity|]. intros ->.
      cbn [app_panel.handle] in Hex. rewrite OnFitResult_out in Hex.
      repeat (apply Exists_cons in Hex as [Hex|Hex]; [discriminate|]).
      inversion Hex.
Qed.

Lemma C7_witness :
  exists tail,
    out (app_panel.OnFitResult returns_at_once (fun _ _ => returns_at_once)
           returns_at_once returns_at_once
           {| app_panel.ap_problem := original |}
           (PyList [3%Q]) sample_heap) =
      SetStatusText "Fit status: Complete" 3 ::
      SendMessage "fit_complete" PyNone ::
      FitterSave "model" :: ProblemSave "model" (PyList [3%Q]) :: tail.
Proof.
  destruct (@C7_result_event_persistence SpecTimedUpdate
              returns_at_once (fun _ _ => returns_at_once)
              returns_at_once returns_at_once
              {| app_panel.ap_problem := original |} (PyList [3%Q])
              sample_heap sample_problem eq_refl)
    as ((tail & E & _ & S) & _).
  destruct (S sample_problem eq_refl) as (tail' & ->).
  exists tail'. exact E.
Defined.

(** C7, as the claim has it, fails: the payload is a best point, not the
    null sentinel, but [fitter.save] raises; the error leaves the handler
    and the best point is never handed to [problem.save]. *)
Lemma C7_counterexample :
  let o := app_panel.OnFitResult disk_full
             (fun _ _ => returns_at_once) returns_at_once
             returns_at_once
             {| app_panel.ap_problem := original |}
             (PyList [3%Q]) sample_heap in
  PyList [3%Q] ≠ PyNone /\
  res o = Raise (IOError "model") /\
  out o = [SetStatusText "Fit status: Complete" 3;
           SendMessage "fit_complete" PyNone;
           FitterSave "model"] /\
  Forall (fun a => forall path best, a ≠ ProblemSave path best) (out o).
Proof.
  cbn zeta. split; [discriminate|]. split; [reflexivity|].
  split; [reflexivity|]. repeat constructor; discriminate.
Qed.

(** ** Further properties of the monitors *)

(** X1.  The periodic events of the uncertainty monitor are rate limited.
    A monitor built with rate [r] starts with a stored time of 0 and a rate
    of [r] (60 when missing or zero).  On a record that carries a state its
    [__call__] keeps that state and posts one event, carrying it, exactly
    when the float test [history.time[0] >= self.time + self.rate] passes,
    the sum being rounded; the stored time then becomes the time of the
    record.  So on a stream whose records all carry a state the first event
    comes on a record that passes the test against 0, and every later one
    on a record that passes the test against the time of the event before
    it. *)
Theorem X1_DreamMonitor_rate_limit
    (w : window) (p : addr) (msg : string) (fitter : Algorithm)
    (r : option float) (hs : list History) :
  forallb fit_thread.hasattr_uncertainty_state hs = true ->
  let m0 := fit_thread.DreamMonitor_init w p msg fitter r in
  fit_thread.dm_time m0 = 0%float /\
  fit_thread.dm_rate m0 = py_or r 60 /\
  dream_emission_times m0 hs = throttle 0 (py_or r 60) hs /\
  (forall a, head (dream_emission_times m0 hs) = Some a ->
     PrimFloat.leb (PrimFloat.add 0 (py_or r 60)) a = true) /\
  (forall i a b,
     dream_emission_times m0 hs !! i = Some a ->
     dream_emission_times m0 hs !! S i = Some b ->
     PrimFloat.leb (PrimFloat.add a (py_or r 60)) b = true) /\
  (forall (self : fit_thread.DreamMonitor) h v hp,
     uncertainty_state h = Some v ->
     exists self',
       res (fit_thread.DreamMonitor_call self h hp) = Ok self' /\
       fit_thread.dm_rate self' = fit_thread.dm_rate self /\
       fit_thread.dm_state self' = v /\
       (PrimFloat.leb
          (PrimFloat.add (fit_thread.dm_time self) (fit_thread.dm_rate self))
          (h_time h) = true /\
        fit_thread.dm_time self' = h_time h /\
        out (fit_thread.DreamMonitor_call self h hp) =
          [PostEvent (fit_thread.dm_win self)
             (FitProgressEvent (fit_thread.dm_problem self)
                "uncertainty_update" [("state", v)])]
        \/
        PrimFloat.leb
          (PrimFloat.add (fit_thread.dm_time self) (fit_thread.dm_rate self))
          (h_time h) = false /\
        fit_thread.dm_time self' = fit_thread.dm_time self /\
        out (fit_thread.DreamMonitor_call self h hp) = [])).
Proof.
  intros Hall m0.
  pose proof (dream_emission_times_throttle hs m0 Hall) as E.
  cbn [fit_thread.DreamMonitor_init fit_thread.dm_time fit_thread.dm_rate m0]
    in E.
  split; [reflexivity|]. split; [reflexivity|]. split; [exact E|].
  rewrite E. split; [|split].
  - intros a Ha. apply (throttle_first _ _ _ _ Ha).
  - intros i a b Ha Hb. apply (throttle_next _ _ _ _ _ _ Ha Hb).
  - intros self h v hp Hv. apply (DreamMonitor_call_cases self h v hp Hv).
Qed.

Lemma X1_witness :
  dream_emission_times
    (fit_thread.DreamMonitor_init 7%positive original "uncertainty_update"
       converging (Some 5%float)) (map record sample_steps)
  = [6%float; 20%float] /\
  PrimFloat.leb (PrimFloat.add 6 5) 20 = true.
Proof.
  destruct (X1_DreamMonitor_rate_limit 7%positive original
              "uncertainty_update" converging (Some 5%float)
              (map record sample_steps) eq_refl) as (_ & _ & E & _ & N & _).
  split.
  - rewrite E. reflexivity.
  - apply (N 0%nat 6%float 20%float); rewrite E; reflexivity.
Defined.

(** X2.  The generic GUI monitor hands every record to the monitor it
    wraps, whether or not the rate lets an event through, and its [final]
    always posts exactly one event, carrying the summary of the wrapped
    monitor over all the records of the stream (over none, for an empty
    stream). *)
Theorem X2_GUIMonitor_final_summarises_stream {PM : ProgressMonitor}
    (self : fit_thread.GUIMonitor) (hs : list History) (hp : Heap) :
  exists self',
    res (foldM fit_thread.GUIMonitor_call self hs hp) = Ok self' /\
    fit_thread.monitor self' = fold_left pm_call hs (fit_thread.monitor self) /\
    out (fit_thread.GUIMonitor_final self' hp) =
      [PostEvent (fit_thread.win self)
         (FitProgressEvent (fit_thread.problem self)
            (fit_thread.message self)
            (pm_progress (fold_left pm_call hs (fit_thread.monitor self))))].
Proof.
  destruct (GUIMonitor_stream_fields hs self hp)
    as (self' & R & W & P & Mg & Mo).
  exists self'. split; [exact R|]. split; [exact Mo|].
  unfold fit_thread.GUIMonitor_final. cbn. rewrite W, P, Mg, Mo. reflexivity.
Qed.

(** X3.  [final] repeats the last periodic event.  When the call of the
    generic GUI monitor on the last record posted an event (the record
    passed the test against the stored time), its [final] posts the very
    same event again.  When the call of the uncertainty monitor on the last
    record posted an event, its [final] posts the very same event again if
    the state of that record is true as a Python value, and nothing
    otherwise. *)
Theorem X3_final_repeats_last_periodic_event {PM : ProgressMonitor}
    (g : fit_thread.GUIMonitor) (d : fit_thread.DreamMonitor)
    (h : History) (hp : Heap) :
  (ge_sum (h_time h) (fit_thread.time g) (fit_thread.rate g) = true ->
   exists g',
     res (fit_thread.GUIMonitor_call g h hp) = Ok g' /\
     out (fit_thread.GUIMonitor_call g h hp) =
       [PostEvent (fit_thread.win g)
          (FitProgressEvent (fit_thread.problem g) (fit_thread.message g)
             (pm_progress (pm_call (fit_thread.monitor g) h)))] /\
     out (fit_thread.GUIMonitor_final g' hp) =
       out (fit_thread.GUIMonitor_call g h hp)) /\
  (forall v,
     ge_sum (h_time h) (fit_thread.dm_time d) (fit_thread.dm_rate d) = true ->
     uncertainty_state h = Some v ->
     exists d',
       res (fit_thread.DreamMonitor_call d h hp) = Ok d' /\
       out (fit_thread.DreamMonitor_call d h hp) =
         [PostEvent (fit_thread.dm_win d)
            (FitProgressEvent (fit_thread.dm_problem d) "uncertainty_update"
               [("state", v)])] /\
       out (fit_thread.DreamMonitor_final d' hp) =
         if truthy v then out (fit_thread.DreamMonitor_call d h hp) else []).
Proof.
  split.
  - intros Hg. rewrite (GUIMonitor_call_posts g h hp Hg). cbn [res out].
    eexists. split; [reflexivity|]. split; reflexivity.
  - intros v Hd Hv.
    destruct (DreamMonitor_call_spec d h v hp Hv)
      as (d' & Rd & _ & Sd & Wd & Pd & _).
    destruct (DreamMonitor_call_cases d h v hp Hv)
      as (d'' & Rd' & _ & _ & [(_ & _ & O)|(L & _)]); [|congruence].
    exists d'. split; [exact Rd|]. split; [exact O|].
    rewrite O. unfold fit_thread.DreamMonitor_final. rewrite Sd.
    destruct (truthy v); [|reflexivity].
    cbn. unfold deepcopy_val. rewrite ?Sd, Wd, Pd. reflexivity.
Qed.

Lemma X3_witness :
  let g := @fit_thread.GUIMonitor_init SpecConvergenceMonitor 7%positive
             original "convergence_update" [] (Some 5%float) in
  let d := fit_thread.DreamMonitor_init 7%positive original
             "uncertainty_update" converging (Some 5%float) in
  let h := sample_record 2 6 1 2 (Some (PyList [1%Q; 2%Q])) in
  (exists g',
     res (@fit_thread.GUIMonitor_call SpecConvergenceMonitor g h sample_heap)
       = Ok g' /\
     out (@fit_thread.GUIMonitor_final SpecConvergenceMonitor g' sample_heap) =
       [PostEvent 7%positive
          (FitProgressEvent original "convergence_update"
             [("pop", PyList [1%Q])])]) /\
  (exists d',
     res (fit_thread.DreamMonitor_call d h sample_heap) = Ok d' /\
     out (fit_thread.DreamMonitor_final d' sample_heap) =
       [PostEvent 7%positive
          (FitProgressEvent original "uncertainty_update"
             [("state", PyList [1%Q; 2%Q])])]).
Proof.
  intros g d h.
  destruct (@X3_final_repeats_last_periodic_event SpecConvergenceMonitor
              g d h sample_heap) as (Hg & Hd).
  split.
  - destruct (Hg eq_refl) as (g' & Rg & Og & Fg).
    exists g'. split; [exact Rg|]. rewrite Fg, Og. reflexivity.
  - destruct (Hd (PyList [1%Q; 2%Q]) eq_refl eq_refl) as (d' & Rd & Od & Fd).
    exists d'. split; [exact Rd|]. rewrite Fd, Od. reflexivity.
Defined.

Lemma py_or_zero (q d : float) :
  PrimFloat.eqb q 0 = true -> py_or (Some q) d = d.
Proof. intros Hq. unfold py_or. rewrite Hq. reflexivity. Qed.

(** X4.  A rate or delay of zero cannot be asked for: the constructors of
    the three monitors take [rate or default], so zero, like a missing
    value, gives the default (10 s for the generic monitor, 60 s for the
    uncertainty monitor, 5 s for both delays of the progress monitor); any
    other value, negative ones included, is kept. *)
Theorem X4_zero_rate_gives_default {TU : TimedUpdate} {PM : ProgressMonitor}
    (w : window) (p : addr) (msg : string) (inner : pm_state)
    (fitter : Algorithm) (z q : float) :
  PrimFloat.eqb z 0 = true ->
  PrimFloat.eqb q 0 = false ->
  fit_thread.rate (fit_thread.GUIMonitor_init w p msg inner (Some z))
    = 10%float /\
  fit_thread.rate (fit_thread.GUIMonitor_init w p msg inner None)
    = 10%float /\
  fit_thread.rate (fit_thread.GUIMonitor_init w p msg inner (Some q)) = q /\
  fit_thread.dm_rate (fit_thread.DreamMonitor_init w p msg fitter (Some z))
    = 60%float /\
  fit_thread.dm_rate (fit_thread.DreamMonitor_init w p msg fitter None)
    = 60%float /\
  fit_thread.dm_rate (fit_thread.DreamMonitor_init w p msg fitter (Some q))
    = q /\
  fit_thread.gp_base (fit_thread.GUIProgressMonitor_init w p (Some z) (Some z))
    = tu_init 5 5 /\
  fit_thread.gp_base (fit_thread.GUIProgressMonitor_init w p None None)
    = tu_init 5 5 /\
  fit_thread.gp_base (fit_thread.GUIProgressMonitor_init w p (Some q) (Some q))
    = tu_init q q.
Proof.
  intros Hz Hq.
  cbn [fit_thread.GUIMonitor_init fit_thread.DreamMonitor_init
       fit_thread.GUIProgressMonitor_init fit_thread.rate fit_thread.dm_rate
       fit_thread.gp_base].
  rewrite !(py_or_zero z _ Hz), !(py_or_given q _ Hq).
  repeat split; reflexivity.
Qed.

Lemma X4_witness :
  fit_thread.dm_rate
    (fit_thread.DreamMonitor_init 7%positive original "uncertainty_update"
       converging (Some 0%float)) = 60%float /\
  fit_thread.dm_rate
    (fit_thread.DreamMonitor_init 7%positive original "uncertainty_update"
       converging (Some (-1)%float)) = (-1)%float.
Proof.
  destruct (@X4_zero_rate_gives_default SpecTimedUpdate SpecConvergenceMonitor
              7%positive original "uncertainty_update" [] converging
              0%float (-1)%float) as (_ & _ & _ & H & _ & H' & _).
  - reflexivity.
  - reflexivity.
  - split; [exact H|exact H'].
Defined.

(** X5.  No monitor of the fit thread touches a problem: calling any of
    the three monitors on a record, finalising it, and the finalisation
    loop of [run] over a whole chain all leave the store exactly as it was,
    whether they return or raise. *)
Theorem X5_fit_thread_monitors_leave_store
    {TU : TimedUpdate} {PM : ProgressMonitor}
    (m : fit_thread.Monitor) (ms : list fit_thread.Monitor)
    (h : History) (i : nat) (hp : Heap) :
  heap_of (fit_thread.Monitor_call m h hp) = hp /\
  heap_of (fit_thread.Monitor_final m hp) = hp /\
  heap_of (fit_thread.finals i ms hp) = hp.
Proof.
  split; [apply heapless_heap, heapless_Monitor_call|].
  split; [apply heapless_heap, heapless_Monitor_final|].
  apply heapless_heap, heapless_finals.
Qed.

Section EmptyRun.
Context {TU : TimedUpdate} {PM : ProgressMonitor}.
Import fit_thread.

(** The finalisation of the monitors of a run that has seen no record. *)
Lemma finals_fresh_monitors self :
  out (finals 0 (run_monitors self) ∅) =
    match tu_final with
    | Some f =>
        FinalCall 0 ::
        out (run_hooks
               (GUIProgressMonitor_init (ft_win self) (ft_problem self)
                  None None)
               (f (tu_init 5 5)) ∅)
    | None => []
    end ++
    [FinalCall 1;
     PostEvent (ft_win self)
       (FitProgressEvent (ft_problem self) "convergence_update"
          (pm_progress pm_new));
     FinalCall 2].
Proof.
  unfold run_monitors. cbn [finals].
  set (g0 := GUIProgressMonitor_init (ft_win self) (ft_problem self)
               None None).
  destruct (final_step_spec 0 (MGUIProgress g0)) as (Hl & R & _).
  rewrite bind_out, R, (heapless_heap _ _ Hl). f_equal.
  cbn [hasattr_final Monitor_final]. destruct tu_final as [f|]; [|reflexivity].
  rewrite bind_out. reflexivity.
Qed.

End EmptyRun.

(** X6.  A fit that returns without having produced any history record
    still finalises the monitors: the run posts one [convergence_update]
    event with the summary of the fresh convergence monitor, whatever the
    [final] of the progress monitor posts before it, no
    [uncertainty_update] event from the uncertainty monitor (it has seen no
    state), and then the completion event. *)
Theorem X6_run_without_records {TU : TimedUpdate} {PM : ProgressMonitor}
    (self : fit_thread.FitThread) (hp : Heap) (p : Problem) (x fx : pyval) :
  hp !! fit_thread.ft_problem self = Some p ->
  steps (fit_thread.ft_fitclass self) = [] ->
  ending (fit_thread.ft_fitclass self) = Returns x fx ->
  res (fit_thread.FitThread_run self hp) = Ok tt /\
  out (fit_thread.FitThread_run self hp) =
    Deepcopy (fit_thread.ft_problem self) (fresh (dom hp)) ::
    StartMapper MPMapper (fresh (dom hp)) ::
    match tu_final with
    | Some f =>
        FinalCall 0 ::
        out (fit_thread.run_hooks
               (fit_thread.GUIProgressMonitor_init (fit_thread.ft_win self)
                  (fit_thread.ft_problem self) None None)
               (f (tu_init 5 5)) ∅)
    | None => []
    end ++
    [FinalCall 1;
     PostEvent (fit_thread.ft_win self)
       (FitProgressEvent (fit_thread.ft_problem self) "convergence_update"
          (pm_progress pm_new));
     FinalCall 2;
     PostEvent (fit_thread.ft_win self)
       (FitCompleteEvent (fit_thread.ft_problem self) x fx)].
Proof.
  intros Hp Hs He.
  destruct (run_decompose self hp p Hp) as (O & R & _).
  rewrite Hs, He in O, R. cbn [map foldM ret res out app] in O, R.
  split; [exact R|]. rewrite O, finals_fresh_monitors.
  rewrite <- app_assoc. reflexivity.
Qed.

Lemma X6_witness :
  posted
    (out (@fit_thread.FitThread_run PlainTimedUpdate SpecConvergenceMonitor
            (sample_thread idle) sample_heap)) =
    [FitProgressEvent original "convergence_update" [("pop", PyList [])];
     FitCompleteEvent original PyNone PyNone].
Proof.
  destruct (@X6_run_without_records PlainTimedUpdate SpecConvergenceMonitor
              (sample_thread idle) sample_heap sample_problem PyNone PyNone
              eq_refl eq_refl eq_refl) as (_ & O).
  rewrite O. reflexivity.
Defined.

(** X7.  Errors while the best point is stored.  An exception of
    [fitter.save] leaves [remember_best] at once: [problem.save] is not
    called.  An exception of [problem.save] is dropped by the bare
    [except]: whether it returns or raises, [open] is called next, on the
    store as [problem.save] left it.  An exception of [open] leaves
    [remember_best] before the layout and the redraw; an exception while
    redrawing leaves it as well. *)
Theorem X7_remember_best_errors {TU : TimedUpdate}
    (fitter_save : string -> Effect)
    (problem_save : addr -> string -> pyval -> Effect)
    (open_file : string -> Effect) (draw : addr -> Effect)
    (self : app_panel.AppPanel) (a : addr) (best : pyval) (hp : Heap)
    (p : Problem) :
  hp !! a = Some p ->
  let o := app_panel.remember_best fitter_save problem_save open_file draw
             self a best hp in
  let hp1 := snd (fitter_save (output p) hp) in
  match fst (fitter_save (output p) hp) with
  | Some e =>
      res o = Raise e /\ heap_of o = hp1 /\ out o = [FitterSave (output p)]
  | None =>
      forall p1 p2,
        hp1 !! a = Some p1 ->
        let hp2 := snd (problem_save a (output p1) best hp1) in
        hp2 !! a = Some p2 ->
        let path := String.append (output p2) ".out" in
        let hp3 := snd (open_file path hp2) in
        match fst (open_file path hp2) with
        | Some e =>
            res o = Raise e /\ heap_of o = hp3 /\
            out o = [FitterSave (output p); ProblemSave (output p1) best;
                     OpenStdout path]
        | None =>
            res o = match fst (draw a hp3) with
                    | Some e => Raise e
                    | None => Ok tt
                    end /\
            heap_of o = snd (draw a hp3) /\
            out o = [FitterSave (output p); ProblemSave (output p1) best;
                     OpenStdout path; Layout; Redraw a]
        end
  end.
Proof.
  intros Hp o hp1.
  destruct (fst (fitter_save (output p) hp)) as [e|] eqn:Hf.
  - unfold o.
    rewrite (remember_best_fitter_raises fitter_save problem_save open_file
               draw self a best hp p e Hp Hf).
    repeat split.
  - intros p1 p2 Hp1 hp2 Hp2 path hp3. unfold o.
    rewrite (remember_best_fitter_returns fitter_save problem_save open_file
               draw self a best hp p p1 p2 Hp Hf Hp1 Hp2).
    fold hp1 hp2 path hp3. cbn [res heap_of out].
    destruct (fst (open_file path hp2)); repeat split.
Qed.

Lemma X7_witness :
  let o := @app_panel.remember_best returns_at_once save_sets_best
             returns_at_once returns_at_once
             {| app_panel.ap_problem := original |} original (PyList [3%Q])
             sample_heap in
  res o = Ok tt /\
  getp <$> heap_of o !! original = Some [3%Q] /\
  out o = [FitterSave "model"; ProblemSave "model" (PyList [3%Q]);
           OpenStdout "model.out"; Layout; Redraw original].
Proof.
  pose proof (@X7_remember_best_errors SpecTimedUpdate
                returns_at_once save_sets_best
                returns_at_once returns_at_once
                {| app_panel.ap_problem := original |} original (PyList [3%Q])
                sample_heap sample_problem eq_refl) as H.
  cbn zeta in H.
  destruct (H sample_problem (setp sample_problem [3%Q]) eq_refl eq_refl)
    as (R & Hh & O).
  cbn zeta. split; [exact R|]. split; [rewrite Hh; reflexivity|exact O].
Defined.

Section PanelMonitor.
Context {TU : TimedUpdate}.
Variable str_int : Z -> string.
Variable str_float : Q -> string.
Variable nice : Q -> Q.
Variable summarize : list FitParameter -> string.
Import app_panel.

Lemma show_improvement_heap (self : GUIMonitor) h hp :
  heap_of (show_improvement summarize self h hp) =
    match hp !! problem self with
    | Some p => <[problem self := setp p (h_point h)]> hp
    | None => hp
    end.
Proof.
  unfold show_improvement. rewrite bind_heap. unfold setp_at at 1 2 3.
  destruct (hp !! problem self) as [p|] eqn:Hp; cbn [res heap_of];
    [|reflexivity].
  rewrite bind_heap. unfold get_parameters at 1 2 3.
  rewrite lookup_insert_eq. reflexivity.
Qed.

Lemma run_hook_frame (self : GUIMonitor) k hp a :
  a ≠ problem self ->
  heap_of (run_hook str_int str_float nice summarize self k hp) !! a
    = hp !! a.
Proof.
  intros Ha. destruct k as [h|h]; cbn [run_hook]; [reflexivity|].
  rewrite show_improvement_heap.
  destruct (hp !! problem self); [|reflexivity].
  apply lookup_insert_ne. congruence.
Qed.

Lemma run_hooks_frame (self : GUIMonitor) ks a : forall hp,
  a ≠ problem self ->
  heap_of (run_hooks str_int str_float nice summarize self ks hp) !! a
    = hp !! a.
Proof.
  induction ks as [|k ks IH]; intros hp Ha; cbn [run_hooks]; [reflexivity|].
  rewrite bind_heap.
  destruct (res (run_hook str_int str_float nice summarize self k hp)).
  - rewrite IH by exact Ha. apply run_hook_frame. exact Ha.
  - apply run_hook_frame. exact Ha.
Qed.

End PanelMonitor.

(** X8.  What [show_improvement] of the panel monitor does to the store:
    it writes the point of the record into the parameters of the problem
    the monitor was built on, publishes one [update_plot] message whose
    data is the summary of the parameters after that write, and leaves
    every other object as it was. *)
Theorem X8_show_improvement_effect {TU : TimedUpdate}
    (summarize : list FitParameter -> string)
    (self : app_panel.GUIMonitor) (h : History) (hp : Heap) (p : Problem) :
  hp !! app_panel.problem self = Some p ->
  let o := app_panel.show_improvement summarize self h hp in
  res o = Ok tt /\
  heap_of o !! app_panel.problem self = Some (setp p (h_point h)) /\
  (forall a, a ≠ app_panel.problem self -> heap_of o !! a = hp !! a) /\
  out o = [SendMessage "update_plot"
             (PyStr (summarize (setp_values (parameters p) (h_point h))))].
Proof.
  intros Hp o.
  destruct (show_improvement_sets_parameters summarize self h hp p Hp)
    as (R & H & O).
  unfold o. rewrite R, H, O. split; [reflexivity|].
  split; [apply lookup_insert_eq|]. split; [|reflexivity].
  intros a Ha. apply lookup_insert_ne. congruence.
Qed.

Lemma X8_witness :
  getp <$> heap_of
    (@app_panel.show_improvement SpecTimedUpdate (fun _ => "summary")
       (@app_panel.GUIMonitor_init SpecTimedUpdate original None None)
       (sample_record 3 20 0 3 None) sample_heap) !! original
  = Some [3%Q].
Proof.
  destruct (@X8_show_improvement_effect SpecTimedUpdate (fun _ => "summary")
              (@app_panel.GUIMonitor_init SpecTimedUpdate original None None)
              (sample_record 3 20 0 3 None) sample_heap sample_problem
              eq_refl) as (_ & H & _).
  exact (f_equal (fmap getp) H).
Defined.

(** X9.  A call of the panel monitor can change one object only, the
    problem it was built on: whatever hooks [TimedUpdate] calls, and
    whether the call returns or raises, every other object of the store is
    left as it was; [show_progress] changes nothing at all. *)
Theorem X9_panel_monitor_changes_own_problem_only {TU : TimedUpdate}
    (str_int : Z -> string) (str_float : Q -> string) (nice : Q -> Q)
    (summarize : list FitParameter -> string)
    (self : app_panel.GUIMonitor) (h : History) (hp : Heap) (a : addr) :
  a ≠ app_panel.problem self ->
  heap_of (app_panel.GUIMonitor_call str_int str_float nice summarize
             self h hp) !! a = hp !! a /\
  heap_of (app_panel.show_progress str_int str_float nice self h hp) = hp.
Proof.
  intros Ha. split; [|reflexivity].
  unfold app_panel.GUIMonitor_call.
  destruct (tu_call (app_panel.base self) h) as [b ks].
  rewrite bind_heap.
  destruct (res (app_panel.run_hooks str_int str_float nice summarize
                   self ks hp)); apply run_hooks_frame; exact Ha.
Qed.

Lemma X9_witness :
  let hp := <[2%positive := sample_problem]> sample_heap in
  heap_of (@app_panel.GUIMonitor_call SpecTimedUpdate (fun _ => "n")
             (fun _ => "x") (fun q => q) (fun _ => "summary")
             (@app_panel.GUIMonitor_init SpecTimedUpdate original None None)
             (sample_record 3 20 0 3 None) hp) !! 2%positive
  = hp !! 2%positive.
Proof.
  cbn zeta.
  apply (@X9_panel_monitor_changes_own_problem_only SpecTimedUpdate
           (fun _ => "n") (fun _ => "x") (fun q => q) (fun _ => "summary")
           (@app_panel.GUIMonitor_init SpecTimedUpdate original None None)
           (sample_record 3 20 0 3 None)
           (<[2%positive := sample_problem]> sample_heap) 2%positive).
  discriminate.
Defined.

(** ** The profile layer *)

Lemma filter_empty_Forall {A} (P : A -> Prop) `{!forall x, Decision (P x)}
    (l : list A) :
  filter P l = [] <-> Forall (fun x => ~ P x) l.
Proof.
  induction l as [|x l IH].
  - split; [constructor|reflexivity].
  - rewrite filter_cons. destruct (decide (P x)) as [Hx|Hx].
    + split; [discriminate|]. intros Hf. inversion Hf. contradiction.
    + rewrite IH. split; [by constructor|]. intros Hf. by inversion Hf.
Qed.

Lemma filter_first {A} (P : A -> Prop) `{!forall x, Decision (P x)}
    (pre : list A) x post :
  Forall (fun y => ~ P y) pre -> P x ->
  filter P (pre ++ x :: post) = x :: filter P post.
Proof.
  intros Hpre Hx. rewrite filter_app, filter_cons_True by exact Hx.
  rewrite (proj2 (filter_empty_Forall P pre) Hpre). reflexivity.
Qed.

Section ProfileInit.
Variable Parameter_default : flayer.Arg -> string -> FitParameter.
Variable ne_zero : FitParameter -> bool.
Import flayer.

(** The attribute that [setattr] gives for the keyword [k] with value [v]. *)
Local Abbreviation attr_of n k v :=
  (AParam (Parameter_default v (String.append (String.append n " ") k))).

Lemma set_parameters_named n items : forall self,
  set_parameters Parameter_default (Some n) self items =
    Done (fold_left (fun s kv => <[kv.1 := attr_of n kv.1 kv.2]> s)
            items self).
Proof.
  induction items as [|[k v] items IH]; intros self; [reflexivity|].
  cbn [set_parameters plus try_bind fold_left]. apply IH.
Qed.

Lemma set_parameters_unnamed items self :
  items ≠ [] ->
  set_parameters Parameter_default None self items =
    Failed (TypeError
              "unsupported operand type(s) for +: 'NoneType' and 'str'").
Proof. destruct items as [|[k v] items]; [congruence|reflexivity]. Qed.

(** The object built from the keywords, key by key. *)
Lemma fold_setattr_lookup n items : forall (self : Object) k,
  NoDup (map fst items) ->
  fold_left (fun s kv => <[kv.1 := attr_of n kv.1 kv.2]> s) items self !! k =
    match (list_to_map items : gmap string Arg) !! k with
    | Some v => Some (attr_of n k v)
    | None => self !! k
    end.
Proof.
  induction items as [|[k0 v0] items IH]; intros self k Hnd; [reflexivity|].
  cbn [map fst] in Hnd. apply NoDup_cons in Hnd as [Hk0 Hnd].
  cbn [fold_left fst snd list_to_map foldr]. rewrite (IH _ k Hnd).
  destruct (decide (k = k0)) as [->|Hne].
  - rewrite lookup_insert_eq.
    rewrite (proj1 (not_elem_of_list_to_map items k0) Hk0).
    rewrite lookup_insert_eq. reflexivity.
  - rewrite !lookup_insert_ne by congruence. reflexivity.
Qed.

(** The keywords after the defaults of the missing arguments are added. *)
Lemma setdefault_all vars : forall (kw : Keywords),
  NoDup (map fst kw) ->
  let kw' := fold_left (fun kw k => setdefault kw k (Scalar 0)) vars kw in
  NoDup (map fst kw') /\
  forall k,
    (list_to_map kw' : gmap string Arg) !! k =
      if decide (k ∈ vars)
      then Some (default (Scalar 0) ((list_to_map kw : gmap string Arg) !! k))
      else (list_to_map kw : gmap string Arg) !! k.
Proof.
  induction vars as [|x vars IH]; intros kw Hnd; cbn zeta.
  - split; [exact Hnd|]. intros k. rewrite decide_False by apply not_elem_of_nil.
    reflexivity.
  - cbn [fold_left].
    assert (setdefault kw x (Scalar 0) =
            if bool_decide (x ∈ map fst kw) then kw
            else kw ++ [(x, Scalar 0)]) as Hsd by reflexivity.
    rewrite Hsd. clear Hsd.
    destruct (bool_decide (x ∈ map fst kw)) eqn:Hx.
    + apply bool_decide_eq_true in Hx.
      destruct (IH kw Hnd) as (Hnd' & Hl). split; [exact Hnd'|].
      intros k. rewrite Hl.
      destruct (decide (k ∈ vars)) as [Hk|Hk].
      * rewrite decide_True by (by right). reflexivity.
      * destruct (decide (k = x)) as [->|Hne].
        -- rewrite decide_True by left.
           destruct ((list_to_map kw : gmap string Arg) !! x) eqn:E;
             [reflexivity|].
           apply not_elem_of_list_to_map in E. contradiction.
        -- rewrite decide_False; [reflexivity|].
           intros Hin. apply elem_of_cons in Hin as [?|?]; contradiction.
    + apply bool_decide_eq_false in Hx.
      assert (NoDup (map fst (kw ++ [(x, Scalar 0)]))) as Hnd1.
      { rewrite map_app. apply NoDup_app. split; [exact Hnd|].
        split; [|apply NoDup_singleton].
        intros y Hy Hy'. cbn in Hy'. apply list_elem_of_singleton in Hy'.
        subst y. contradiction. }
      destruct (IH _ Hnd1) as (Hnd' & Hl). split; [exact Hnd'|].
      intros k. rewrite Hl.
      rewrite list_to_map_snoc by exact Hx.
      destruct (decide (k = x)) as [->|Hne].
      * rewrite lookup_insert_eq.
        rewrite (proj1 (not_elem_of_list_to_map kw x) Hx).
        destruct (decide (x ∈ x :: vars)) as [_|Hn];
          [|exfalso; apply Hn; left].
        destruct (decide (x ∈ vars)); reflexivity.
      * rewrite lookup_insert_ne by congruence.
        destruct (decide (k ∈ vars)) as [Hk|Hk].
        -- rewrite decide_True by (by right). reflexivity.
        -- rewrite decide_False; [reflexivity|].
           intros Hin. apply elem_of_cons in Hin as [?|?]; contradiction.
Qed.

End ProfileInit.

Section ProfileObject.
Variable Parameter_default : flayer.Arg -> string -> FitParameter.
Variable ne_zero : FitParameter -> bool.
Import flayer.

Local Abbreviation attr_of n k v :=
  (AParam (Parameter_default v (String.append (String.append n " ") k))).

(** The attributes set before the keywords are looked at. *)
Local Abbreviation base_object th itf f n :=
  (<["profile" := AProfile f]>
     (<["interface" :=
          AParam (Parameter_default itf (String.append n " interface"))]>
        (<["thickness" :=
             AParam (Parameter_default th (String.append n " thickness"))]>
           (<["name" := AStr (name_or_default (Some n%string))]> (∅ : Object))))).

Lemma init_named th itf f n (kw : Keywords) :
  nonzero ne_zero itf = false ->
  FunctionProfile_init Parameter_default ne_zero th itf (Some f) (Some n) kw =
    match filter (fun k => k ∉ argnames f) (map fst kw) with
    | k :: _ =>
        Failed (TypeError
          (String.append "Profile got unexpected keyword argument '"
             (String.append k "'")))
    | [] =>
        match filter (fun k => k ∈ reserved) (argnames f) with
        | k :: _ =>
            Failed (TypeError
              (String.append "Profile has conflicting argument '"
                 (String.append k "'")))
        | [] =>
            Done (<["_parameters" := ANames (argnames f)]>
                    (fold_left
                       (fun s kv => <[kv.1 := attr_of n kv.1 kv.2]> s)
                       (fold_left (fun kw k => setdefault kw k (Scalar 0))
                          (argnames f) kw)
                       (base_object th itf f n)))
        end
    end.
Proof.
  intros Hz. unfold FunctionProfile_init. rewrite Hz.
  cbn [plus try_bind].
  destruct (filter _ (map fst kw)); [|reflexivity].
  destruct (filter _ (argnames f)); [|reflexivity].
  rewrite set_parameters_named. reflexivity.
Qed.

Lemma init_done_inv th itf prof name (kw : Keywords) self :
  FunctionProfile_init Parameter_default ne_zero th itf prof name kw
    = Done self ->
  nonzero ne_zero itf = false /\
  exists f n, prof = Some f /\ name = Some n /\
    Forall (fun k => k ∈ argnames f) (map fst kw) /\
    Forall (fun k => k ∉ reserved) (argnames f) /\
    self = <["_parameters" := ANames (argnames f)]>
             (fold_left (fun s kv => <[kv.1 := attr_of n kv.1 kv.2]> s)
                (fold_left (fun kw k => setdefault kw k (Scalar 0))
                   (argnames f) kw)
                (base_object th itf f n)).
Proof.
  intros H.
  destruct (nonzero ne_zero itf) eqn:Hz.
  { unfold FunctionProfile_init in H. rewrite Hz in H. discriminate. }
  split; [reflexivity|].
  destruct prof as [f|];
    [|unfold FunctionProfile_init in H; rewrite Hz in H; discriminate].
  destruct name as [n|];
    [|unfold FunctionProfile_init in H; rewrite Hz in H; discriminate].
  rewrite (init_named _ _ _ _ _ Hz) in H.
  destruct (filter _ (map fst kw)) eqn:Hu; [|discriminate].
  destruct (filter _ (argnames f)) eqn:Hd; [|discriminate].
  injection H as <-.
  exists f, n. split; [reflexivity|]. split; [reflexivity|].
  apply filter_empty_Forall in Hu, Hd.
  split; [|split; [exact Hd|reflexivity]].
  eapply Forall_impl; [exact Hu|]. intros k Hk.
  destruct (decide (k ∈ argnames f)); [assumption|contradiction].
Qed.

(** Every attribute of a constructed object. *)
Lemma init_lookup th itf f n (kw : Keywords) self k :
  FunctionProfile_init Parameter_default ne_zero th itf (Some f) (Some n) kw
    = Done self ->
  NoDup (map fst kw) ->
  self !! k =
    if decide (k = "_parameters") then Some (ANames (argnames f))
    else if decide (k ∈ argnames f)
         then Some (attr_of n k
                      (default (Scalar 0)
                         ((list_to_map kw : gmap string Arg) !! k)))
         else base_object th itf f n !! k.
Proof.
  intros H Hnd.
  destruct (init_done_inv _ _ _ _ _ _ H)
    as (_ & f' & n' & [= <-] & [= <-] & Hkeys & _ & ->).
  destruct (decide (k = "_parameters")) as [->|Hk];
    [apply lookup_insert_eq|].
  rewrite lookup_insert_ne by congruence.
  destruct (setdefault_all (argnames f) kw Hnd) as (Hnd' & Hl).
  rewrite (fold_setattr_lookup Parameter_default n _ _ k Hnd'), Hl.
  destruct (decide (k ∈ argnames f)) as [Hin|Hin]; [reflexivity|].
  destruct ((list_to_map kw : gmap string Arg) !! k) eqn:E; [|reflexivity].
  exfalso. apply Hin.
  assert (k ∈ map fst kw) as Hkin.
  { destruct (decide (k ∈ map fst kw)) as [?|Hn]; [assumption|].
    apply not_elem_of_list_to_map in Hn. congruence. }
  rewrite Forall_forall in Hkeys. apply Hkeys. exact Hkin.
Qed.

End ProfileObject.

(** X10.  When the constructor of a profile layer succeeds.  It returns an
    object exactly when the interface is zero, a profile function and a
    name are given, every keyword is an argument of the profile function
    (after [self] and [z]), and no such argument is called [thickness],
    [interface] or [profile].  In particular the default [name=None] never
    gives an object, although a default name is assigned first. *)
Theorem X10_FunctionProfile_init_succeeds_iff
    (Parameter_default : flayer.Arg -> string -> FitParameter)
    (ne_zero : FitParameter -> bool)
    (thickness interface : flayer.Arg) (profile : option flayer.Profile)
    (name : option string) (kw : list (string * flayer.Arg)) :
  (exists self,
     flayer.FunctionProfile_init Parameter_default ne_zero thickness
       interface profile name kw = flayer.Done self)
  <->
  flayer.nonzero ne_zero interface = false /\
  exists f n, profile = Some f /\ name = Some n /\
    Forall (fun k => k ∈ flayer.argnames f) (map fst kw) /\
    Forall (fun k => k ∉ flayer.reserved) (flayer.argnames f).
Proof.
  split.
  - intros [self H].
    destruct (init_done_inv _ _ _ _ _ _ _ _ H)
      as (Hz & f & n & -> & -> & Hk & Hr & _).
    split; [exact Hz|]. exists f, n. auto.
  - intros (Hz & f & n & -> & -> & Hk & Hr).
    rewrite (init_named _ _ _ _ _ _ _ Hz).
    assert (filter (fun k => k ∉ flayer.argnames f) (map fst kw) = []) as ->.
    { apply filter_empty_Forall. eapply Forall_impl; [exact Hk|].
      intros k Hin Hn. contradiction. }
    assert (filter (fun k => k ∈ flayer.reserved) (flayer.argnames f) = [])
      as -> by (apply filter_empty_Forall; exact Hr).
    eexists. reflexivity.
Qed.

(** X11.  Which error the constructor raises.  The checks are made in
    order: a nonzero interface gives [NotImplementedError] whatever else
    is wrong; then a missing profile gives [TypeError("Need profile")];
    then a missing name gives a [TypeError] from [name+" thickness"]; then
    the first keyword, in the order of the dictionary, that is not an
    argument of the profile function is reported as unexpected; then the
    first argument of the profile function called [thickness], [interface]
    or [profile] is reported as conflicting. *)
Theorem X11_FunctionProfile_init_errors
    (Parameter_default : flayer.Arg -> string -> FitParameter)
    (ne_zero : FitParameter -> bool)
    (thickness interface : flayer.Arg) (f : flayer.Profile) (n : string)
    (kw : list (string * flayer.Arg)) :
  flayer.nonzero ne_zero interface = false ->
  (forall bad profile name,
     flayer.nonzero ne_zero bad = true ->
     flayer.FunctionProfile_init Parameter_default ne_zero thickness bad
       profile name kw =
     flayer.Failed (flayer.NotImplementedError "interface not yet supported"))
  /\
  (forall name,
     flayer.FunctionProfile_init Parameter_default ne_zero thickness
       interface None name kw =
     flayer.Failed (flayer.TypeError "Need profile")) /\
  flayer.FunctionProfile_init Parameter_default ne_zero thickness
    interface (Some f) None kw =
    flayer.Failed
      (flayer.TypeError
         "unsupported operand type(s) for +: 'NoneType' and 'str'") /\
  (forall pre k post,
     map fst kw = pre ++ k :: post ->
     Forall (fun k' => k' ∈ flayer.argnames f) pre ->
     k ∉ flayer.argnames f ->
     flayer.FunctionProfile_init Parameter_default ne_zero thickness
       interface (Some f) (Some n) kw =
     flayer.Failed
       (flayer.TypeError
          (String.append "Profile got unexpected keyword argument '"
             (String.append k "'")))) /\
  (forall pre k post,
     Forall (fun k' => k' ∈ flayer.argnames f) (map fst kw) ->
     flayer.argnames f = pre ++ k :: post ->
     Forall (fun k' => k' ∉ flayer.reserved) pre ->
     k ∈ flayer.reserved ->
     flayer.FunctionProfile_init Parameter_default ne_zero thickness
       interface (Some f) (Some n) kw =
     flayer.Failed
       (flayer.TypeError
          (String.append "Profile has conflicting argument '"
             (String.append k "'")))).
Proof.
  intros Hz. split; [|split; [|split; [|split]]].
  - intros bad profile name Hb. unfold flayer.FunctionProfile_init.
    rewrite Hb. reflexivity.
  - intros name. unfold flayer.FunctionProfile_init. rewrite Hz. reflexivity.
  - unfold flayer.FunctionProfile_init. rewrite Hz. reflexivity.
  - intros pre k post Hkw Hpre Hk.
    rewrite (init_named _ _ _ _ _ _ _ Hz), Hkw.
    rewrite (filter_first (fun k => k ∉ flayer.argnames f) pre k post);
      [reflexivity| |exact Hk].
    eapply Forall_impl; [exact Hpre|]. intros k' Hin Hn. contradiction.
  - intros pre k post Hkeys Hvars Hpre Hk.
    rewrite (init_named _ _ _ _ _ _ _ Hz).
    assert (filter (fun k => k ∉ flayer.argnames f) (map fst kw) = []) as ->.
    { apply filter_empty_Forall. eapply Forall_impl; [exact Hkeys|].
      intros k' Hin Hn. contradiction. }
    rewrite Hvars.
    rewrite (filter_first (fun k => k ∈ flayer.reserved) pre k post);
      [reflexivity|exact Hpre|exact Hk].
Qed.

Lemma X11_witness :
  flayer.FunctionProfile_init sample_default (fun _ => true)
    (flayer.Scalar 100) (flayer.Scalar 0) (Some sample_profile)
    (Some "blob")
    [("period", flayer.Scalar 3); ("width", flayer.Scalar 1);
     ("depth", flayer.Scalar 2)] =
  flayer.Failed
    (flayer.TypeError "Profile got unexpected keyword argument 'width'").
Proof.
  destruct (X11_FunctionProfile_init_errors sample_default (fun _ => true)
              (flayer.Scalar 100) (flayer.Scalar 0) sample_profile "blob"
              [("period", flayer.Scalar 3); ("width", flayer.Scalar 1);
               ("depth", flayer.Scalar 2)] eq_refl)
    as (_ & _ & _ & H & _).
  apply (H ["period"] "width" ["depth"]).
  - reflexivity.
  - repeat constructor.
  - vm_compute. intros Hin.
    repeat (apply elem_of_cons in Hin as [Hin|Hin]; [discriminate|]).
    inversion Hin.
Defined.

(** X12.  The attributes of a constructed profile layer.  [_parameters] is
    the list of the arguments of the profile function after [self] and
    [z]; each of these arguments is an attribute holding
    [Parameter.default] of the keyword given for it, or of 0 when none was
    given, named [name+" "+argument]; [thickness], [interface] and
    [profile] are as passed, never overwritten by an argument; and there
    is no other attribute besides [name]. *)
Theorem X12_FunctionProfile_init_attributes
    (Parameter_default : flayer.Arg -> string -> FitParameter)
    (ne_zero : FitParameter -> bool)
    (thickness interface : flayer.Arg) (f : flayer.Profile) (n : string)
    (kw : list (string * flayer.Arg)) (self : flayer.Object) :
  flayer.FunctionProfile_init Parameter_default ne_zero thickness interface
    (Some f) (Some n) kw = flayer.Done self ->
  NoDup (map fst kw) ->
  self !! "_parameters" = Some (flayer.ANames (flayer.argnames f)) /\
  (forall k, k ∈ flayer.argnames f -> k ≠ "_parameters" ->
     self !! k =
       Some (flayer.AParam
               (Parameter_default
                  (default (flayer.Scalar 0)
                     ((list_to_map kw : gmap string flayer.Arg) !! k))
                  (String.append (String.append n " ") k)))) /\
  self !! "thickness" =
    Some (flayer.AParam
            (Parameter_default thickness (String.append n " thickness"))) /\
  self !! "interface" =
    Some (flayer.AParam
            (Parameter_default interface (String.append n " interface"))) /\
  self !! "profile" = Some (flayer.AProfile f) /\
  ("name" ∉ flayer.argnames f ->
   self !! "name" = Some (flayer.AStr (flayer.name_or_default (Some n)))) /\
  (forall k, k ∉ flayer.argnames f ->
     k ∉ ["name"; "thickness"; "interface"; "profile"; "_parameters"] ->
     self !! k = None).
Proof.
  intros H Hnd.
  destruct (init_done_inv _ _ _ _ _ _ _ _ H)
    as (_ & f' & n' & [= <-] & [= <-] & _ & Hres & _).
  rewrite Forall_forall in Hres.
  assert (forall k, k ∈ flayer.reserved -> k ∉ flayer.argnames f) as Hno.
  { intros k Hk Hin. exact (Hres k Hin Hk). }
  pose proof (fun k => init_lookup _ _ _ _ _ _ _ _ k H Hnd) as L.
  split; [rewrite L; reflexivity|].
  split.
  { intros k Hk Hne. rewrite L.
    rewrite decide_False by exact Hne. rewrite decide_True by exact Hk.
    reflexivity. }
  split.
  { rewrite L. rewrite decide_False by discriminate.
    rewrite decide_False by (apply Hno; left). reflexivity. }
  split.
  { rewrite L. rewrite decide_False by discriminate.
    rewrite decide_False by (apply Hno; right; left). reflexivity. }
  split.
  { rewrite L. rewrite decide_False by discriminate.
    rewrite decide_False by (apply Hno; right; right; left). reflexivity. }
  split.
  { intros Hname. rewrite L. rewrite decide_False by discriminate.
    rewrite decide_False by exact Hname. reflexivity. }
  intros k Hk Hother. rewrite L.
  rewrite decide_False by (intros ->; apply Hother; repeat constructor).
  rewrite decide_False by exact Hk.
  rewrite !lookup_insert_ne; [apply lookup_empty| | | |];
    intros <-; apply Hother; repeat constructor.
Qed.

Lemma X12_witness :
  sample_layer !! "phase" =
    Some (flayer.AParam
            {| name := "blob phase"; lo := 0; hi := 0; value := 0 |}) /\
  sample_layer !! "period" =
    Some (flayer.AParam
            {| name := "blob period"; lo := 3; hi := 3; value := 3 |}).
Proof.
  destruct (X12_FunctionProfile_init_attributes sample_default
              (fun _ => true) (flayer.Scalar 100) (flayer.Scalar 0)
              sample_profile "blob" [("period", flayer.Scalar 3)]
              sample_layer) as (_ & H & _).
  - reflexivity.
  - repeat constructor. intros Hin. inversion Hin.
  - split.
    + rewrite (H "phase"); [reflexivity| |discriminate].
      right. left.
    + rewrite (H "period"); [reflexivity| |discriminate].
      left.
Defined.

Section ProfileMethods.
Import flayer.

Lemma collect_lookup (self : Object) ks : forall (P : gmap string Attr),
  (forall k, k ∈ ks -> is_Some (self !! k)) ->
  exists P', collect self ks P = Done P' /\
    forall k, P' !! k = if decide (k ∈ ks) then self !! k else P !! k.
Proof.
  induction ks as [|k0 ks IH]; intros P Hall.
  - exists P. split; [reflexivity|]. intros k.
    rewrite decide_False by apply not_elem_of_nil. reflexivity.
  - destruct (Hall k0) as [v Hv]; [left|].
    cbn [collect]. unfold getattr. rewrite Hv. cbn [try_bind].
    destruct (IH (<[k0 := v]> P)) as (P' & E & L).
    { intros k Hk. apply Hall. by right. }
    exists P'. split; [exact E|]. intros k. rewrite L.
    destruct (decide (k ∈ ks)) as [Hk|Hk].
    + rewrite decide_True by (by right). reflexivity.
    + destruct (decide (k = k0)) as [->|Hne].
      * rewrite decide_True by left. rewrite lookup_insert_eq. congruence.
      * rewrite lookup_insert_ne by congruence.
        rewrite decide_False; [reflexivity|].
        intros Hin. apply elem_of_cons in Hin as [?|?]; contradiction.
Qed.


End ProfileMethods.

Section ProfileFacts.
Variable Parameter_default : flayer.Arg -> string -> FitParameter.
Variable ne_zero : FitParameter -> bool.
Import flayer.

(** What the methods need of a constructed object. *)
Lemma init_facts_for_methods th itf f n (kw : Keywords) (self : Object) :
  FunctionProfile_init Parameter_default ne_zero th itf (Some f) (Some n) kw
    = Done self ->
  NoDup (map fst kw) ->
  self !! "_parameters" = Some (ANames (argnames f)) /\
  (forall k, k ∈ argnames f -> is_Some (self !! k)) /\
  self !! "thickness" =
    Some (AParam (Parameter_default th (String.append n " thickness"))) /\
  (forall k, k ∈ reserved -> k ∉ argnames f).
Proof.
  intros H Hnd.
  destruct (init_done_inv _ _ _ _ _ _ _ _ H)
    as (_ & f' & n' & [= <-] & [= <-] & _ & Hres & _).
  rewrite Forall_forall in Hres.
  assert (forall k, k ∈ reserved -> k ∉ argnames f) as Hno.
  { intros k Hk Hin. exact (Hres k Hin Hk). }
  pose proof (fun k => init_lookup _ _ _ _ _ _ _ _ k H Hnd) as L.
  split; [rewrite L; reflexivity|]. split; [|split; [|exact Hno]].
  - intros k Hk. rewrite L. destruct (decide (k = "_parameters")); [eauto|].
    rewrite decide_True by exact Hk. eauto.
  - rewrite L. rewrite decide_False by discriminate.
    rewrite decide_False by (apply Hno; left). reflexivity.
Qed.

(** Looking up a method on a constructed object: an argument of the
    profile function with the name of the method hides it. *)
Lemma init_method_lookup th itf f n (kw : Keywords) (self : Object) m :
  FunctionProfile_init Parameter_default ne_zero th itf (Some f) (Some n) kw
    = Done self ->
  NoDup (map fst kw) ->
  m ∈ class_functions ->
  getattr self m =
    if decide (m ∈ argnames f)
    then Done (AParam
                 (Parameter_default
                    (default (Scalar 0)
                       ((list_to_map kw : gmap string Arg) !! m))
                    (String.append (String.append n " ") m)))
    else Done (AMethod m).
Proof.
  intros H Hnd Hm.
  pose proof (init_lookup _ _ _ _ _ _ _ _ m H Hnd) as L.
  assert (m = "parameters" \/ m = "render") as Hcases.
  { unfold class_functions in Hm.
    apply elem_of_cons in Hm as [->|Hm]; [by left|].
    apply list_elem_of_singleton in Hm. by right. }
  unfold getattr. rewrite L.
  rewrite decide_False by (destruct Hcases as [-> | ->]; discriminate).
  destruct (decide (m ∈ argnames f)); [reflexivity|].
  rewrite !lookup_insert_ne
    by (destruct Hcases as [-> | ->]; discriminate).
  rewrite lookup_empty, bool_decide_eq_true_2 by exact Hm. reflexivity.
Qed.

End ProfileFacts.

(** X13.  [parameters()] on a constructed profile layer.  When the
    profile function has an argument called [parameters], the attribute
    that [__init__] sets for it hides the method and the call raises a
    [TypeError].  Otherwise the call does not raise; the dictionary it
    returns has exactly the arguments of the profile function and
    [thickness] as keys, each with the value of the attribute of that name;
    [interface] is not in it. *)
Theorem X13_FunctionProfile_parameters_after_init
    (Parameter_default : flayer.Arg -> string -> FitParameter)
    (ne_zero : FitParameter -> bool)
    (thickness interface : flayer.Arg) (f : flayer.Profile) (n : string)
    (kw : list (string * flayer.Arg)) (self : flayer.Object) :
  flayer.FunctionProfile_init Parameter_default ne_zero thickness interface
    (Some f) (Some n) kw = flayer.Done self ->
  NoDup (map fst kw) ->
  if decide ("parameters" ∈ flayer.argnames f)
  then
    flayer.FunctionProfile_parameters self =
      flayer.Failed (flayer.TypeError "object is not callable")
  else
    exists P,
      flayer.FunctionProfile_parameters self = flayer.Done P /\
      (forall k,
         is_Some (P !! k) <-> k = "thickness" \/ k ∈ flayer.argnames f) /\
      (forall k, k ∈ flayer.argnames f -> P !! k = self !! k) /\
      P !! "thickness" =
        Some (flayer.AParam
                (Parameter_default thickness
                   (String.append n " thickness"))) /\
      P !! "interface" = None.
Proof.
  intros H Hnd.
  destruct (init_facts_for_methods Parameter_default ne_zero thickness
              interface f n kw self H Hnd)
    as (Hnames & Hsome & Hth & Hno).
  pose proof (init_method_lookup Parameter_default ne_zero thickness
                interface f n kw self "parameters" H Hnd) as Hm.
  unfold flayer.FunctionProfile_parameters.
  rewrite Hm by (unfold flayer.class_functions; left).
  destruct (decide ("parameters" ∈ flayer.argnames f)); [reflexivity|].
  cbn [flayer.try_bind].
  unfold flayer.parameters_body, flayer.get_names, flayer.getattr.
  rewrite Hnames. cbn [flayer.try_bind].
  destruct (collect_lookup self (flayer.argnames f) ∅) as (P' & E & L).
  { intros k Hk. unfold flayer.getattr.
    destruct (Hsome k Hk) as [v ->]. eauto. }
  unfold flayer.getattr in E. rewrite E, Hth. cbn [flayer.try_bind].
  eexists. split; [reflexivity|].
  assert (forall k, k ∈ flayer.argnames f -> k ≠ "thickness") as Hne.
  { intros k Hk ->. apply (Hno "thickness"); [left|exact Hk]. }
  split; [|split; [|split]].
  - intros k. destruct (decide (k = "thickness")) as [->|Hk].
    + rewrite lookup_insert_eq. split; [by left|eauto].
    + rewrite lookup_insert_ne by congruence. rewrite L.
      destruct (decide (k ∈ flayer.argnames f)) as [Hin|Hin].
      * split; [by right|]. intros _. apply Hsome. exact Hin.
      * rewrite lookup_empty. split; [intros [? ?]; discriminate|].
        intros [?|?]; contradiction.
  - intros k Hk. rewrite lookup_insert_ne by (apply not_eq_sym, Hne, Hk).
    rewrite L. rewrite decide_True by exact Hk. reflexivity.
  - apply lookup_insert_eq.
  - rewrite lookup_insert_ne by discriminate. rewrite L.
    rewrite decide_False by (apply (Hno "interface"); right; left).
    apply lookup_empty.
Qed.

Lemma X13_witness :
  (exists P,
     flayer.FunctionProfile_parameters sample_layer = flayer.Done P /\
     P !! "interface" = None) /\
  flayer.FunctionProfile_parameters shadowed_layer =
    flayer.Failed (flayer.TypeError "object is not callable").
Proof.
  split.
  - pose proof (X13_FunctionProfile_parameters_after_init sample_default
                  (fun _ => true) (flayer.Scalar 100) (flayer.Scalar 0)
                  sample_profile "blob" [("period", flayer.Scalar 3)]
                  sample_layer) as Hw.
    destruct (decide ("parameters" ∈ flayer.argnames sample_profile))
      as [Hin|_].
    { exfalso. vm_compute in Hin.
      repeat (apply elem_of_cons in Hin as [Hin|Hin]; [discriminate|]).
      inversion Hin. }
    destruct Hw as (P & E & _ & _ & _ & Hi).
    + reflexivity.
    + repeat constructor. intros Hin. inversion Hin.
    + exists P. split; [exact E|exact Hi].
  - pose proof (X13_FunctionProfile_parameters_after_init sample_default
                  (fun _ => true) (flayer.Scalar 100) (flayer.Scalar 0)
                  shadowing_profile "blob" [] shadowed_layer) as Hw.
    destruct (decide ("parameters" ∈ flayer.argnames shadowing_profile))
      as [_|Hn].
    + apply Hw; [reflexivity|constructor].
    + exfalso. apply Hn. vm_compute. left.
Defined.

Section ProfileRenderFacts.
Variable Parameter_default : flayer.Arg -> string -> FitParameter.
Variable ne_zero : FitParameter -> bool.
Import flayer.


End ProfileRenderFacts.


